(** * A single-domain web crawler (crawler.py): model and properties

    The development embeds [crawler.py] shallowly:
    - [Py]: the [str] methods that the crawler and its libraries call;
    - the functions of CPython's [urllib.parse] that the crawler imports
      ([urlparse], [urljoin], [urldefrag]);
    - the document tree that [BeautifulSoup] hands to the extraction
      functions, with [find_all] and [Tag.get];
    - the functions and the class of [crawler.py] itself, the methods of
      the class as statements that update the instance and may raise;
    - [HtmlParser] and the example sites, to run the crawler on.
    What lies outside [crawler.py] and cannot be modelled from its text (the
    network behind the session, the HTML parser, the iteration order of a
    set, the pause of [time.sleep] in the operating system) is a parameter:
    the class [Collaborators].

    A [string] stands for a Python [str] whose code points are all below
    256, each character of [Ascii] being the code point of that number. The
    tests that the code makes on a character are comparisons with ASCII
    delimiters; [str.lower] is modelled on all 256 code points. A [float] is
    an IEEE 754 binary64 value ([spec_float]). *)

From stdpp Require Import gmap strings list fin_maps.
From Stdlib Require Import ZArith SpecFloat Ascii String.

Local Open Scope string_scope.
Set Warnings "-register-all,-clear-no-such-hyp".

(** ** Exceptions *)

(** The exception classes that the code distinguishes: [ValueError] (raised
    by [urllib.parse] and by [time.sleep]), [OverflowError] (raised by
    [time.sleep]), [requests.exceptions.RequestException] (with its subclass
    [HTTPError], raised by [raise_for_status]) and any other subclass of
    [Exception] (the [ParserRejectedMarkup] of [bs4], [OSError], ...). *)
Inductive exn : Type :=
  | ValueError
  | OverflowError
  | RequestException
  | OtherException.

Inductive result (A : Type) : Type :=
  | Ok (a : A)
  | Raise (e : exn).
Arguments Ok {A} a.
Arguments Raise {A} e.

Definition bind {A B} (r : result A) (k : A -> result B) : result B :=
  match r with
  | Ok a => k a
  | Raise e => Raise e
  end.

Notation "x <- r ;; k" := (bind r (fun x => k))
  (at level 100, r at next level, right associativity).

Definition Ok_not_Raise {A} (a : A) (e : exn) : Ok a <> Raise e :=
  fun Heq =>
    eq_ind (Ok a) (fun r => match r with Ok _ => True | Raise _ => False end)
           I (Raise e) Heq.

(** ** Python's [str] methods *)

Module Py.

(** [c in s] for a one-character [c]. *)
Fixpoint contains (c : ascii) (s : string) : bool :=
  match s with
  | EmptyString => false
  | String d s' => if Ascii.eqb c d then true else contains c s'
  end.

(** [s.find(c)]: the index of the first [c]; [None] stands for Python's -1. *)
Fixpoint find (c : ascii) (s : string) : option nat :=
  match s with
  | EmptyString => None
  | String d s' => if Ascii.eqb c d then Some 0%nat else S <$> find c s'
  end.

(** [s.rfind(c)]: the index of the last [c]. *)
Fixpoint rfind (c : ascii) (s : string) : option nat :=
  match s with
  | EmptyString => None
  | String d s' =>
      match rfind c s' with
      | Some i => Some (S i)
      | None => if Ascii.eqb c d then Some 0%nat else None
      end
  end.

(** The slices [s[:n]] and [s[n:]]. *)
Fixpoint take (n : nat) (s : string) : string :=
  match n, s with
  | S n', String c s' => String c (take n' s')
  | _, _ => EmptyString
  end.

Fixpoint drop (n : nat) (s : string) : string :=
  match n, s with
  | S n', String _ s' => drop n' s'
  | _, _ => s
  end.

(** [s.partition(c)] as the pair (head, tail); when [c] does not occur the
    head is [s] and the tail is empty. [s.split(c, 1)] is the same pair
    whenever [c in s], which is how the code uses it. *)
Fixpoint partition (c : ascii) (s : string) : string * string :=
  match s with
  | EmptyString => (EmptyString, EmptyString)
  | String d s' =>
      if Ascii.eqb c d then (EmptyString, s')
      else let '(h, t) := partition c s' in (String d h, t)
  end.

(** [s.rpartition(c)[2]]: what follows the last [c], or [s] itself. *)
Fixpoint rpartition_tail (c : ascii) (s : string) : string :=
  match s with
  | EmptyString => EmptyString
  | String d s' =>
      if contains c s' then rpartition_tail c s'
      else if Ascii.eqb c d then s' else s
  end.

(** [s.split(c)]: always at least one piece. *)
Fixpoint split (c : ascii) (s : string) : list string :=
  match s with
  | EmptyString => [EmptyString]
  | String d s' =>
      if Ascii.eqb c d then EmptyString :: split c s'
      else match split c s' with
           | p :: ps => String d p :: ps
           | [] => [String d EmptyString]
           end
  end.

(** [sep.join(parts)]. *)
Fixpoint join (sep : string) (parts : list string) : string :=
  match parts with
  | [] => EmptyString
  | [p] => p
  | p :: ps => p +:+ sep +:+ join sep ps
  end.

(** [s.lstrip(chars)] and [s.rstrip(chars)], the set [chars] given as a
    test on characters. *)
Fixpoint lstrip (p : ascii -> bool) (s : string) : string :=
  match s with
  | EmptyString => EmptyString
  | String c s' => if p c then lstrip p s' else s
  end.

Fixpoint rstrip (p : ascii -> bool) (s : string) : string :=
  match s with
  | EmptyString => EmptyString
  | String c s' =>
      match rstrip p s' with
      | EmptyString => if p c then EmptyString else String c EmptyString
      | r => String c r
      end
  end.

(** [s.replace(c, "")]. *)
Fixpoint remove (p : ascii -> bool) (s : string) : string :=
  match s with
  | EmptyString => EmptyString
  | String c s' => if p c then remove p s' else String c (remove p s')
  end.

Definition is_upper (c : ascii) : bool :=
  let n := nat_of_ascii c in (65 <=? n)%nat && (n <=? 90)%nat.

Definition is_lower (c : ascii) : bool :=
  let n := nat_of_ascii c in (97 <=? n)%nat && (n <=? 122)%nat.

Definition is_digit (c : ascii) : bool :=
  let n := nat_of_ascii c in (48 <=? n)%nat && (n <=? 57)%nat.

(** [c.isascii() and c.isalpha()]. *)
Definition is_ascii_alpha (c : ascii) : bool := is_upper c || is_lower c.

(** [c.lower()]: the capital letters below code point 256 are [A] to [Z]
    and the Latin-1 capitals 192 to 222 without the multiplication sign
    215; the small letter of each is 32 above it. *)
Definition lower_char (c : ascii) : ascii :=
  let n := nat_of_ascii c in
  if is_upper c
     || ((192 <=? n)%nat && (n <=? 222)%nat && negb (n =? 215)%nat)
  then ascii_of_nat (n + 32) else c.

(** [s.lower()]; no character below code point 256 has a small form that
    depends on its neighbours or is longer than one character. *)
Fixpoint lower (s : string) : string :=
  match s with
  | EmptyString => EmptyString
  | String c s' => String (lower_char c) (lower s')
  end.

Fixpoint forallb (p : ascii -> bool) (s : string) : bool :=
  match s with
  | EmptyString => true
  | String c s' => p c && forallb p s'
  end.

(** [s.startswith(p)]. *)
Fixpoint startswith (p s : string) : bool :=
  match p, s with
  | EmptyString, _ => true
  | String a p', String b s' => Ascii.eqb a b && startswith p' s'
  | String _ _, EmptyString => false
  end.

(** Truth value of a string: [bool(s)]. *)
Definition truthy (s : string) : bool :=
  match s with EmptyString => false | _ => true end.

(** The last character of [s], if any, satisfies [p]. *)
Fixpoint ends_with (p : ascii -> bool) (s : string) : bool :=
  match s with
  | EmptyString => false
  | String c EmptyString => p c
  | String _ s' => ends_with p s'
  end.

(** [url.rstrip('/')], the crawler's own normalisation. *)
Definition rstrip_slash (s : string) : string := rstrip (Ascii.eqb "/") s.

End Py.

(** ** [urllib.parse] *)

(** The model follows CPython 3.11's [Lib/urllib/parse.py] function by
    function. Two checks of [urlsplit] are not string manipulation:
    - [_check_bracketed_host] validates an IPv6 or IPvFuture literal with
      the [ipaddress] module; it is the parameter [bracketed_host_ok]
      (releases before 3.11.4 have no such check: [fun _ => true]);
    - [_checknetloc] rejects a netloc whose NFKC normal form contains a
      delimiter; no code point below 256 has such a normal form, so the check
      never raises on the strings modelled here. *)

Record ParseResult : Type := mkParseResult {
  scheme : string;
  netloc : string;
  path : string;
  params : string;
  query : string;
  fragment : string
}.

Definition uses_relative : list string :=
  [""; "ftp"; "http"; "gopher"; "nntp"; "imap"; "wais"; "file"; "https";
   "shttp"; "mms"; "prospero"; "rtsp"; "rtspu"; "sftp"; "svn"; "svn+ssh";
   "ws"; "wss"].

Definition uses_netloc : list string :=
  [""; "ftp"; "http"; "gopher"; "nntp"; "telnet"; "imap"; "wais"; "file";
   "mms"; "https"; "shttp"; "snews"; "prospero"; "rtsp"; "rtspu"; "rsync";
   "svn"; "svn+ssh"; "sftp"; "nfs"; "git"; "git+ssh"; "ws"; "wss"].

Definition uses_params : list string :=
  [""; "ftp"; "hdl"; "prospero"; "http"; "imap"; "https"; "shttp"; "rtsp";
   "rtspu"; "sip"; "sips"; "mms"; "sftp"; "tel"].

Definition str_in (s : string) (l : list string) : bool :=
  bool_decide (s ∈ l).

Definition scheme_char (c : ascii) : bool :=
  Py.is_lower c || Py.is_upper c || Py.is_digit c
  || Ascii.eqb c "+" || Ascii.eqb c "-" || Ascii.eqb c ".".

(** [_WHATWG_C0_CONTROL_OR_SPACE]: the characters 0x00 to 0x20. *)
Definition c0_control_or_space (c : ascii) : bool :=
  (nat_of_ascii c <=? 32)%nat.

(** [_UNSAFE_URL_BYTES_TO_REMOVE]: tab, carriage return, line feed. *)
Definition unsafe_url_byte (c : ascii) : bool :=
  let n := nat_of_ascii c in
  (n =? 9)%nat || (n =? 13)%nat || (n =? 10)%nat.

(** [_splitnetloc(url, 2)] on a [url] that starts with two slashes, given
    here without them: the netloc runs to the first of [/], [?], [#]. *)
Fixpoint splitnetloc (s : string) : string * string :=
  match s with
  | EmptyString => (EmptyString, EmptyString)
  | String c s' =>
      if Ascii.eqb c "/" || Ascii.eqb c "?" || Ascii.eqb c "#"
      then (EmptyString, s)
      else let '(n, r) := splitnetloc s' in (String c n, r)
  end.

(** [_splitparams]. *)
Definition splitparams (url : string) : string * string :=
  if Py.contains "/" url then
    match Py.rfind "/" url with
    | Some j =>
        match Py.find ";" (Py.drop j url) with
        | Some k => (Py.take (j + k) url, Py.drop (j + k + 1) url)
        | None => (url, "")
        end
    | None => (url, "")
    end
  else
    match Py.find ";" url with
    | Some i => (Py.take i url, Py.drop (i + 1) url)
    | None =>
        (* i = -1: url[:-1] and url[0:]; unreachable from urlparse, which
           calls _splitparams only when ';' in url *)
        (Py.take (String.length url - 1) url, url)
    end.

(** ** The collaborators *)

(** A Python number, as the [delay] of a crawler is: an [int] or a
    [float] (on any other object [time.sleep] raises a [TypeError], which is
    outside the model). *)
Inductive number : Type :=
  | PyInt (z : Z)
  | PyFloat (f : spec_float).

(** A [requests.Response], as far as the crawler reads it. *)
Record Response : Type := mkResponse {
  status_code : Z;
  text : string
}.

(** The document tree that [BeautifulSoup(html, 'html.parser')] builds: a
    [Tag] has a name, its attributes (the items of [Tag.attrs]) and its
    contents; anything else in the document is a [NavigableString]. *)
Inductive node : Type :=
  | Tag (name : string) (attrs : list (string * string)) (contents : list node)
  | NavigableString (s : string).

(** What the crawler is given from outside [crawler.py]:
    - [bracketed_host_ok]: see above;
    - [BeautifulSoup html]: [BeautifulSoup(html, 'html.parser')], which
      returns the contents of the parsed document or raises, when the parser
      rejects the markup ([ParserRejectedMarkup]) or fails in another way;
      [bs4] knows nothing of [requests], so what it raises is no
      [RequestException];
    - a [requests.Session]: an object with a state of its own (cookies,
      connection pool, the network behind it); [session_get s url] is
      [s.get(url, timeout=10, allow_redirects=True)] and returns the
      session afterwards together with the response or the exception;
    - [get_session]: a fresh [requests.Session()];
    - [list_of_set]: the order in which Python iterates over the [set] built
      by adding the given strings one after the other; it is unspecified, but
      the result enumerates the distinct strings;
    - [pysleep timeout]: the pause of [time.sleep] itself, for a timeout in
      nanoseconds that is not negative; it returns when the time has passed,
      or raises when the operating system rejects the timeout ([OSError]);
      what it does is taken to depend on the timeout only. *)
Class Collaborators : Type := {
  bracketed_host_ok : string -> bool;
  BeautifulSoup : string -> result (list node);
  BeautifulSoup_raises :
    forall html, BeautifulSoup html <> Raise RequestException;
  Session : Type;
  get_session : Session;
  session_get : Session -> string -> Session * result Response;
  list_of_set : list string -> list string;
  list_of_set_perm : forall l, list_of_set l ≡ₚ remove_dups l;
  pysleep : Z -> result unit
}.

Section Definitions.

Context `{Collaborators}.

(** [_check_bracketed_netloc]: [true] when no [ValueError] is raised. *)
Definition check_bracketed_netloc (netloc : string) : bool :=
  let hostname_and_port := Py.rpartition_tail "@" netloc in
  let '(before_bracket, bracketed) := Py.partition "[" hostname_and_port in
  if Py.contains "[" hostname_and_port then
    if Py.truthy before_bracket then false
    else
      let '(hostname, port) := Py.partition "]" bracketed in
      if Py.truthy port && negb (Py.startswith ":" port) then false
      else bracketed_host_ok hostname
  else
    let '(hostname, _) := Py.partition ":" hostname_and_port in
    bracketed_host_ok hostname.

(** [urlsplit(url, scheme)] with [allow_fragments=True]; the result is a
    [ParseResult] whose [params] is empty. *)
Definition urlsplit (url default_scheme : string) : result ParseResult :=
  let url := Py.lstrip c0_control_or_space url in
  let default_scheme :=
    Py.rstrip c0_control_or_space (Py.lstrip c0_control_or_space default_scheme) in
  let url := Py.remove unsafe_url_byte url in
  let default_scheme := Py.remove unsafe_url_byte default_scheme in
  let '(scheme, url) :=
    match Py.find ":" url, url with
    | Some (S i), String c0 _ =>
        if Py.is_ascii_alpha c0 && Py.forallb scheme_char (Py.take (S i) url)
        then (Py.lower (Py.take (S i) url), Py.drop (S i + 1) url)
        else (default_scheme, url)
    | _, _ => (default_scheme, url)
    end in
  nr <-
    (if Py.startswith "//" url then
       let '(netloc, rest) := splitnetloc (Py.drop 2 url) in
       if (Py.contains "[" netloc && negb (Py.contains "]" netloc))
          || (Py.contains "]" netloc && negb (Py.contains "[" netloc))
       then Raise ValueError
       else if Py.contains "[" netloc && Py.contains "]" netloc
                 && negb (check_bracketed_netloc netloc)
       then Raise ValueError
       else Ok (netloc, rest)
     else Ok ("", url)) ;;
  let '(netloc, url) := nr in
  let '(url, fragment) :=
    if Py.contains "#" url then Py.partition "#" url else (url, "") in
  let '(url, query) :=
    if Py.contains "?" url then Py.partition "?" url else (url, "") in
  Ok (mkParseResult scheme netloc url "" query fragment).

(** [urlparse(url, scheme)]. *)
Definition urlparse_with (url default_scheme : string) : result ParseResult :=
  r <- urlsplit url default_scheme ;;
  if str_in (scheme r) uses_params && Py.contains ";" (path r) then
    let '(url, params) := splitparams (path r) in
    Ok (mkParseResult (scheme r) (netloc r) url params (query r) (fragment r))
  else Ok r.

(** [urlparse(url)]. *)
Definition urlparse (url : string) : result ParseResult :=
  urlparse_with url "".

(** [ParseResult._hostinfo[0]]: the netloc without its userinfo and its
    port; of a bracketed host, what is between the brackets. *)
Definition hostinfo (r : ParseResult) : string :=
  let hostinfo := Py.rpartition_tail "@" (netloc r) in
  if Py.contains "[" hostinfo then
    let '(_, bracketed) := Py.partition "[" hostinfo in
    fst (Py.partition "]" bracketed)
  else fst (Py.partition ":" hostinfo).

(** [ParseResult.hostname]: the host in lower case, but for the zone of a
    scoped IPv6 address; [None] when there is no host. *)
Definition hostname (r : ParseResult) : option string :=
  let hostname := hostinfo r in
  if negb (Py.truthy hostname) then None
  else if Py.contains "%" hostname then
    let '(hostname, zone) := Py.partition "%" hostname in
    Some (Py.lower hostname +:+ "%" +:+ zone)
  else Some (Py.lower hostname).

(** [urlunsplit((scheme, netloc, url, query, fragment))]. *)
Definition urlunsplit (scheme netloc url query fragment : string) : string :=
  let url :=
    if Py.truthy netloc
       || (Py.truthy scheme && str_in scheme uses_netloc
           && negb (String.eqb (Py.take 2 url) "//"))
    then
      let url :=
        if Py.truthy url && negb (String.eqb (Py.take 1 url) "/")
        then "/" +:+ url else url in
      "//" +:+ netloc +:+ url
    else url in
  let url := if Py.truthy scheme then scheme +:+ ":" +:+ url else url in
  let url := if Py.truthy query then url +:+ "?" +:+ query else url in
  let url := if Py.truthy fragment then url +:+ "#" +:+ fragment else url in
  url.

(** [urlunparse(components)]. *)
Definition urlunparse (r : ParseResult) : string :=
  let url :=
    if Py.truthy (params r) then path r +:+ ";" +:+ params r else path r in
  urlunsplit (scheme r) (netloc r) url (query r) (fragment r).

(** [urldefrag(url)]: the pair (defragmented URL, fragment). *)
Definition urldefrag (url : string) : result (string * string) :=
  if Py.contains "#" url then
    r <- urlparse url ;;
    Ok (urlunparse (mkParseResult (scheme r) (netloc r) (path r) (params r)
                                  (query r) ""),
        fragment r)
  else Ok (url, "").

(** [segments[1:-1] = filter(None, segments[1:-1])]: the empty strings
    strictly between the first and the last element are dropped. *)
Definition filter_middle (segments : list string) : list string :=
  match segments with
  | [] => []
  | first :: rest =>
      match last rest with
      | None => [first]
      | Some final =>
          (first :: filter (fun seg => Py.truthy seg = true) (removelast rest)
                 ++ [final])%list
      end
  end.

(** The loop of [urljoin] over [segments] that builds [resolved_path]:
    [".."] pops (an empty list stays empty), ["."] is skipped. *)
Definition resolve_segments (segments : list string) : list string :=
  fold_left
    (fun resolved_path seg =>
       if String.eqb seg ".." then removelast resolved_path
       else if String.eqb seg "." then resolved_path
       else (resolved_path ++ [seg])%list)
    segments [].

(** [urljoin(base, url)]. *)
Definition urljoin (base url : string) : result string :=
  if negb (Py.truthy base) then Ok url
  else if negb (Py.truthy url) then Ok base
  else
    b <- urlparse_with base "" ;;
    u <- urlparse_with url (scheme b) ;;
    if negb (String.eqb (scheme u) (scheme b))
       || negb (str_in (scheme u) uses_relative)
    then Ok url
    else if str_in (scheme u) uses_netloc && Py.truthy (netloc u)
    then Ok (urlunparse u)
    else
      let netloc' :=
        if str_in (scheme u) uses_netloc then netloc b else netloc u in
      if negb (Py.truthy (path u)) && negb (Py.truthy (params u)) then
        let query' := if Py.truthy (query u) then query u else query b in
        Ok (urlunparse (mkParseResult (scheme u) netloc' (path b) (params b)
                                      query' (fragment u)))
      else
        let base_parts := Py.split "/" (path b) in
        let base_parts :=
          match last base_parts with
          | Some EmptyString | None => base_parts
          | Some _ => removelast base_parts
          end in
        let segments :=
          if String.eqb (Py.take 1 (path u)) "/"
          then Py.split "/" (path u)
          else filter_middle (base_parts ++ Py.split "/" (path u))%list in
        let resolved_path := resolve_segments segments in
        let resolved_path :=
          match last segments with
          | Some seg =>
              if String.eqb seg "." || String.eqb seg ".."
              then (resolved_path ++ [""])%list else resolved_path
          | None => resolved_path
          end in
        let joined := Py.join "/" resolved_path in
        let path' := if Py.truthy joined then joined else "/" in
        Ok (urlunparse (mkParseResult (scheme u) netloc' path' (params u)
                                      (query u) (fragment u))).


(** ** [bs4] *)

(** [for x in xs: ys.append(f(x))] where [f] may raise: the first
    exception ends the loop. *)
Fixpoint mapM {A B} (f : A -> result B) (xs : list A) : result (list B) :=
  match xs with
  | [] => Ok []
  | x :: xs' => y <- f x ;; ys <- mapM f xs' ;; Ok (y :: ys)
  end.

(** [Tag.descendants], in document order. *)
Fixpoint descendants (n : node) : list node :=
  match n with
  | Tag _ _ contents =>
      flat_map (fun child => child :: descendants child) contents
  | NavigableString _ => []
  end.

Definition has_name (names : list string) (n : node) : bool :=
  match n with
  | Tag name _ _ => str_in name names
  | NavigableString _ => false
  end.

(** [tag.find_all(names)], on the contents of [tag]. *)
Definition find_all (names : list string) (contents : list node) : list node :=
  List.filter (has_name names)
              (flat_map (fun child => child :: descendants child) contents).

Fixpoint dict_get (key : string) (items : list (string * string)) : option string :=
  match items with
  | [] => None
  | (k, v) :: items' => if String.eqb k key then Some v else dict_get key items'
  end.

(** [tag.get(key)]: [None] when the attribute is missing. *)
Definition tag_get (tag : node) (key : string) : option string :=
  match tag with
  | Tag _ attrs _ => dict_get key attrs
  | NavigableString _ => None
  end.

(** [tag.get(key, default)]. *)
Definition tag_get_default (tag : node) (key default : string) : string :=
  match tag_get tag key with
  | Some v => v
  | None => default
  end.

Definition tag_contents (tag : node) : list node :=
  match tag with
  | Tag _ _ contents => contents
  | NavigableString _ => []
  end.

(** ** [requests] *)

(** [Response.raise_for_status()]: an [HTTPError], which is a
    [RequestException], for the statuses 400 to 599. *)
Definition raise_for_status (r : Response) : result unit :=
  if ((400 <=? status_code r) && (status_code r <? 600))%Z
  then Raise RequestException
  else Ok tt.

(** ** [time] *)

(** [time.sleep(secs)], after [time_sleep] in CPython 3.11's
    [Modules/timemodule.c] and [_PyTime_FromSecondsObject] in
    [Python/pytime.c]: the argument is converted to a number of nanoseconds
    in a C [int64_t] ([_PyTime_t]), which raises [OverflowError] when it does
    not fit (and [ValueError] for a NaN); a negative timeout is a
    [ValueError]; then comes the pause. *)

Definition SEC_TO_NS : Z := 1000000000.
Definition PyTime_MIN : Z := - 2 ^ 63.
Definition PyTime_MAX : Z := 2 ^ 63 - 1.

(** [(double)n]. *)
Definition double_of_Z (n : Z) : spec_float :=
  binary_normalize 53 1024 n 0 false.

(** [pytime_round(d, _PyTime_ROUND_TIMEOUT)]: [ceil(d)] for [d >= 0] and
    [floor(d)] otherwise, as the integer that the resulting [double] is;
    [None] for an infinity. *)
Definition pytime_round (d : spec_float) : option Z :=
  match d with
  | S754_zero _ => Some 0%Z
  | S754_finite s m e =>
      let magnitude :=
        match e with
        | Zneg p => ((Zpos m + 2 ^ Zpos p - 1) / 2 ^ Zpos p)%Z
        | _ => (Zpos m * 2 ^ e)%Z
        end in
      Some (if s then (- magnitude)%Z else magnitude)
  | S754_infinity _ | S754_nan => None
  end.

(** [(_PyTime_t)d] for an integral [d] with [_PyTime_MIN <= d <= 2^63]: the
    low 64 bits, which is what the conversion of x86-64 gives for [2^63]. *)
Definition to_int64 (n : Z) : Z := ((n + 2 ^ 63) mod 2 ^ 64 - 2 ^ 63)%Z.

(** [pytime_from_double(tp, value, _PyTime_ROUND_TIMEOUT, SEC_TO_NS)]; the
    range test [_Py_InIntegralTypeRange(_PyTime_t, d)] compares with
    [(double)_PyTime_MAX], which is [2^63]. *)
Definition pytime_from_double (value : spec_float) : result Z :=
  let d := SFmul 53 1024 value (double_of_Z SEC_TO_NS) in
  match pytime_round d with
  | Some n =>
      if ((PyTime_MIN <=? n) && (n <=? 2 ^ 63))%Z then Ok (to_int64 n)
      else Raise OverflowError
  | None => Raise OverflowError
  end.

(** [_PyTime_FromSecondsObject(tp, obj, _PyTime_ROUND_TIMEOUT)]: a [float]
    goes through [pytime_from_double]; an [int] must fit a C [long long]
    ([PyLong_AsLongLong]) and its product with [SEC_TO_NS] a [_PyTime_t]
    ([pytime_mul], with the truncating division of C). *)
Definition PyTime_FromSecondsObject (obj : number) : result Z :=
  match obj with
  | PyFloat S754_nan => Raise ValueError
  | PyFloat d => pytime_from_double d
  | PyInt sec =>
      if ((sec <? PyTime_MIN) || (PyTime_MAX <? sec))%Z
      then Raise OverflowError
      else if ((sec <? Z.quot PyTime_MIN SEC_TO_NS)
               || (Z.quot PyTime_MAX SEC_TO_NS <? sec))%Z
      then Raise OverflowError
      else Ok (sec * SEC_TO_NS)%Z
  end.

Definition time_sleep (secs : number) : result unit :=
  timeout <- PyTime_FromSecondsObject secs ;;
  if (timeout <? 0)%Z then Raise ValueError else pysleep timeout.

(** ** [crawler.py] *)

Definition is_same_domain (base_url url : string) : bool :=
  match (b <- urlparse base_url ;; u <- urlparse url ;;
         Ok (String.eqb (netloc b) (netloc u))) with
  | Ok same => same
  | Raise ValueError => false
  | Raise _ => false (* urlparse raises nothing but ValueError *)
  end.

Definition has_href (a_tag : node) : bool :=
  match tag_get a_tag "href" with
  | Some _ => true
  | None => false
  end.

Definition extract_links (html page_url : string) : result (list string) :=
  soup <- BeautifulSoup html ;;
  links <- mapM (fun a_tag =>
                   let href := tag_get_default a_tag "href" "" in
                   urljoin page_url href)
                (List.filter has_href (find_all ["a"] soup)) ;;
  Ok (list_of_set links).

Record input_info : Type := mkInput {
  name : option string;
  type : option string;
  value : option string
}.

Record form_info : Type := mkForm {
  method : string;
  action : string;
  inputs : list input_info
}.

Definition extract_forms (html page_url : string) : result (list form_info) :=
  soup <- BeautifulSoup html ;;
  mapM (fun form_tag =>
          action <- urljoin page_url (tag_get_default form_tag "action" "") ;;
          Ok {| method := Py.lower (tag_get_default form_tag "method" "get");
                action := action;
                inputs :=
                  map (fun input_tag =>
                         {| name := tag_get input_tag "name";
                            type := tag_get input_tag "type";
                            value := tag_get input_tag "value" |})
                      (find_all ["input"; "textarea"; "select"]
                                (tag_contents form_tag)) |})
       (find_all ["form"] soup).

(** The lines that the crawler prints, one constructor for each [print]. *)
Inductive line : Type :=
  | Initializing (base : string)
  | MaxPages (max_pages : Z) (delay : number)
  | Processing (url : string)
  | Skipping (url : string)
  | Fetching (url : string)
  | Fetched (url : string) (status : Z)
  | FoundForms (n : nat)
  | FoundLinks (n : nat)
  | Added (l : string)
  | FailedToFetch (url : string)
  | UnexpectedError (url : string)
  | VisitedCount (n : nat).

(** An instance of [class Crawler]; [stdout] is what it has printed, the
    most recent line first. *)
Record Crawler : Type := mkCrawler {
  base : string;
  max_pages : Z;
  delay : number;
  session : Session;
  visited : gset string;
  queue : list string;
  pages : gmap string string;
  forms : gmap string (list form_info);
  stdout : list line
}.

(** [Crawler.__init__(base_url, max_pages, delay, session)]: no statement
    of the constructor can raise. *)
Definition __init__ (base_url : string) (max_pages : Z) (delay : number)
    (session : option Session) : result Crawler :=
  let base := Py.rstrip_slash base_url in
  Ok
  {| base := base;
     max_pages := max_pages;
     delay := delay;
     session := match session with Some s => s | None => get_session end;
     visited := ∅;
     queue := [base];
     pages := ∅;
     forms := ∅;
     stdout := [MaxPages max_pages delay; Initializing base] |}.

(** Statements of a method of [Crawler]: they update the instance and end
    normally or with an exception; what was updated before an exception
    stays updated. *)
Definition M (A : Type) : Type := Crawler -> Crawler * result A.

Definition ret {A} (a : A) : M A := fun c => (c, Ok a).

Definition mbind {A B} (m : M A) (k : A -> M B) : M B :=
  fun c =>
    match m c with
    | (c', Ok a) => k a c'
    | (c', Raise e) => (c', Raise e)
    end.

Notation "x <-- m ;;; k" := (mbind m (fun x => k))
  (at level 100, m at next level, right associativity).
Notation "m ;;; k" := (mbind m (fun _ => k))
  (at level 100, right associativity).

Definition lift {A} (r : result A) : M A := fun c => (c, r).

(** [try: body except RequestException: h1 except Exception: h2 finally: fin] *)
Definition try_except_finally (body : M unit)
    (except_request except_other : M unit) (finally : M unit) : M unit :=
  fun c =>
    let '(c1, r1) := body c in
    let '(c2, r2) :=
      match r1 with
      | Ok _ => (c1, Ok tt)
      | Raise RequestException => except_request c1
      | Raise _ => except_other c1
      end in
    let '(c3, r3) := finally c2 in
    match r3 with
    | Ok _ => (c3, r2)
    | Raise e => (c3, Raise e)
    end.

Definition print (l : line) : M unit := fun c =>
  ({| base := base c; max_pages := max_pages c; delay := delay c;
      session := session c; visited := visited c; queue := queue c;
      pages := pages c; forms := forms c; stdout := l :: stdout c |}, Ok tt).

Definition set_queue (q : list string) : M unit := fun c =>
  ({| base := base c; max_pages := max_pages c; delay := delay c;
      session := session c; visited := visited c; queue := q;
      pages := pages c; forms := forms c; stdout := stdout c |}, Ok tt).

(** [self.queue.pop(0)]; an [IndexError] on an empty queue. *)
Definition queue_pop : M string := fun c =>
  match queue c with
  | [] => (c, Raise OtherException)
  | u :: q => (fst (set_queue q c), Ok u)
  end.

(** [self.queue.append(l)]. *)
Definition queue_append (l : string) : M unit := fun c =>
  set_queue (queue c ++ [l])%list c.

(** [self.visited.add(url)]. *)
Definition visited_add (url : string) : M unit := fun c =>
  ({| base := base c; max_pages := max_pages c; delay := delay c;
      session := session c; visited := {[url]} ∪ visited c; queue := queue c;
      pages := pages c; forms := forms c; stdout := stdout c |}, Ok tt).

(** [self.pages[url] = text]. *)
Definition pages_set (url text : string) : M unit := fun c =>
  ({| base := base c; max_pages := max_pages c; delay := delay c;
      session := session c; visited := visited c; queue := queue c;
      pages := <[url := text]> (pages c); forms := forms c;
      stdout := stdout c |}, Ok tt).

(** [self.forms[url] = forms]. *)
Definition forms_set (url : string) (fs : list form_info) : M unit := fun c =>
  ({| base := base c; max_pages := max_pages c; delay := delay c;
      session := session c; visited := visited c; queue := queue c;
      pages := pages c; forms := <[url := fs]> (forms c);
      stdout := stdout c |}, Ok tt).

(** [self.session.get(url, timeout=10, allow_redirects=True)]. *)
Definition get (url : string) : M Response := fun c =>
  let '(s, r) := session_get (session c) url in
  ({| base := base c; max_pages := max_pages c; delay := delay c;
      session := s; visited := visited c; queue := queue c;
      pages := pages c; forms := forms c; stdout := stdout c |}, r).

(** [urldefrag(l)[0].rstrip('/')], line 93: how a discovered link is
    normalized. *)
Definition normalize (l : string) : result string :=
  d <- urldefrag l ;;
  Ok (Py.rstrip_slash (fst d)).

(** The body of [for l in links]. *)
Definition enqueue_link (l : string) : M unit :=
  l <-- lift (normalize l) ;;;
  fun c =>
    if Py.truthy l && negb (bool_decide (l ∈ visited c))
       && negb (bool_decide (l ∈ queue c))
    then (queue_append l ;;; print (Added l)) c
    else ret tt c.

Fixpoint for_each {A} (xs : list A) (body : A -> M unit) : M unit :=
  match xs with
  | [] => ret tt
  | x :: xs' => body x ;;; for_each xs' body
  end.

(** The [try] block of [crawl], lines 78 to 96. *)
Definition try_block (url : string) : M unit :=
  print (Fetching url) ;;;
  r <-- get url ;;;
  lift (raise_for_status r) ;;;
  pages_set url (text r) ;;;
  print (Fetched url (status_code r)) ;;;
  fs <-- lift (extract_forms (text r) url) ;;;
  (match fs with
   | [] => ret tt
   | _ => forms_set url fs ;;; print (FoundForms (List.length fs))
   end) ;;;
  links <-- lift (extract_links (text r) url) ;;;
  print (FoundLinks (List.length links)) ;;;
  for_each links enqueue_link.

(** The [finally] block, lines 105 to 107. *)
Definition finally_block (url : string) : M unit :=
  visited_add url ;;;
  (fun c => print (VisitedCount (size (visited c))) c) ;;;
  (fun c => lift (time_sleep (delay c)) c).

(** [url in self.visited or not is_same_domain(self.base, url)]. *)
Definition skip_test (c : Crawler) (url : string) : bool :=
  bool_decide (url ∈ visited c) || negb (is_same_domain (base c) url).

(** One pass through the body of the [while] loop, lines 69 to 107. *)
Definition crawl_body : M unit :=
  u <-- queue_pop ;;;
  let url := Py.rstrip_slash u in
  print (Processing url) ;;;
  fun c =>
    if skip_test c url
    then print (Skipping url) c
    else try_except_finally (try_block url)
                            (print (FailedToFetch url))
                            (print (UnexpectedError url))
                            (finally_block url) c.

(** [self.queue and len(self.visited) < self.max_pages]. *)
Definition loop_cond (c : Crawler) : bool :=
  match queue c with
  | [] => false
  | _ => (Z.of_nat (size (visited c)) <? max_pages c)%Z
  end.

(** The [while] loop, at most [fuel] passes; [None] when the passes did not
    suffice. *)
Fixpoint crawl_loop (fuel : nat) (c : Crawler) : option (Crawler * result unit) :=
  if loop_cond c then
    match fuel with
    | O => None
    | S fuel' =>
        match crawl_body c with
        | (c', Ok _) => crawl_loop fuel' c'
        | (c', Raise e) => Some (c', Raise e)
        end
    end
  else Some (c, Ok tt).

(** The dictionary [{'pages': ..., 'forms': ...}] that [crawl] returns. *)
Record CrawlResult : Type := mkCrawlResult {
  result_pages : gmap string string;
  result_forms : gmap string (list form_info)
}.

(** [Crawler.crawl()]: the instance afterwards and what was returned or
    raised. *)
Definition crawl (fuel : nat) (c : Crawler)
    : option (Crawler * result CrawlResult) :=
  match crawl_loop fuel c with
  | None => None
  | Some (c', Ok _) =>
      Some (c', Ok {| result_pages := pages c'; result_forms := forms c' |})
  | Some (c', Raise e) => Some (c', Raise e)
  end.

End Definitions.

(** ** Collaborators to run the crawler on *)

(** A tree builder for plain markup, after [html.parser] as [bs4] drives
    it: text, start tags with attributes (quoted or not; names in lower
    case; a repeated attribute keeps its last value; an attribute without
    a value has the empty string), end tags (closing the nearest open tag of
    that name, ignored when there is none), void elements and
    self-closing tags (no contents). Comments, declarations, character
    references and the raw text of [script] and [style] are outside it. *)
Module HtmlParser.

Inductive mode : Type :=
  | InText (acc : string)
  | TagOpen
  | EndName (acc : string)
  | StartName (acc : string)
  | Attrs (tag : string) (attrs : list (string * string))
  | AttrName (tag : string) (attrs : list (string * string)) (acc : string)
  | AfterName (tag : string) (attrs : list (string * string)) (key : string)
  | AttrEq (tag : string) (attrs : list (string * string)) (key : string)
  | Quoted (tag : string) (attrs : list (string * string)) (key : string)
           (quote : ascii) (acc : string)
  | Unquoted (tag : string) (attrs : list (string * string)) (key : string)
             (acc : string)
  | SelfClose (tag : string) (attrs : list (string * string)).

(** An open element: its name, attributes and the contents read so far,
    the last one first. *)
Definition frame : Type := string * list (string * string) * list node.

Record builder : Type := mkBuilder {
  open_tags : list frame;
  document : list node
}.

Fixpoint rev_string (s acc : string) : string :=
  match s with
  | EmptyString => acc
  | String c s' => rev_string s' (String c acc)
  end.

Definition finish_acc (acc : string) : string := rev_string acc "".

Definition is_space (c : ascii) : bool :=
  let n := nat_of_ascii c in
  (n =? 32)%nat || (n =? 9)%nat || (n =? 10)%nat || (n =? 13)%nat
  || (n =? 12)%nat.

Definition double_quote : ascii := ascii_of_nat 34.

Definition void_elements : list string :=
  ["area"; "base"; "br"; "col"; "embed"; "hr"; "img"; "input"; "keygen";
   "link"; "menuitem"; "meta"; "param"; "source"; "track"; "wbr"].

Fixpoint dict_set (key val : string) (items : list (string * string))
    : list (string * string) :=
  match items with
  | [] => [(key, val)]
  | (k, v) :: items' =>
      if String.eqb k key then (k, val) :: items'
      else (k, v) :: dict_set key val items'
  end.

Definition add_node (n : node) (b : builder) : builder :=
  match open_tags b with
  | [] => {| open_tags := []; document := n :: document b |}
  | (t, a, cs) :: fs => {| open_tags := (t, a, n :: cs) :: fs;
                           document := document b |}
  end.

Definition add_text (acc : string) (b : builder) : builder :=
  match acc with
  | EmptyString => b
  | _ => add_node (NavigableString (finish_acc acc)) b
  end.

Definition close_top (b : builder) : builder :=
  match open_tags b with
  | [] => b
  | (t, a, cs) :: fs =>
      add_node (Tag t a (rev cs)) {| open_tags := fs; document := document b |}
  end.

Definition is_open (tag : string) (b : builder) : bool :=
  existsb (fun f : frame => String.eqb (fst (fst f)) tag) (open_tags b).

(** Close the open elements down to and including the nearest [tag]. *)
Fixpoint pop_to (fuel : nat) (tag : string) (b : builder) : builder :=
  match fuel, open_tags b with
  | S fuel', (t, _, _) :: _ =>
      if String.eqb t tag then close_top b
      else pop_to fuel' tag (close_top b)
  | _, _ => b
  end.

Definition end_tag (tag : string) (b : builder) : builder :=
  if is_open tag b then pop_to (List.length (open_tags b)) tag b else b.

Definition start_tag (tag : string) (attrs : list (string * string))
    (self_closing : bool) (b : builder) : builder :=
  if self_closing || str_in tag void_elements
  then add_node (Tag tag attrs []) b
  else {| open_tags := (tag, attrs, []) :: open_tags b;
          document := document b |}.

Definition step (st : mode * builder) (c : ascii) : mode * builder :=
  let '(m, b) := st in
  match m with
  | InText acc =>
      if Ascii.eqb c "<" then (TagOpen, add_text acc b)
      else (InText (String c acc), b)
  | TagOpen =>
      if Ascii.eqb c "/" then (EndName "", b)
      else (StartName (String (Py.lower_char c) ""), b)
  | EndName acc =>
      if Ascii.eqb c ">" then (InText "", end_tag (finish_acc acc) b)
      else if is_space c then (EndName acc, b)
      else (EndName (String (Py.lower_char c) acc), b)
  | StartName acc =>
      if Ascii.eqb c ">" then (InText "", start_tag (finish_acc acc) [] false b)
      else if Ascii.eqb c "/" then (SelfClose (finish_acc acc) [], b)
      else if is_space c then (Attrs (finish_acc acc) [], b)
      else (StartName (String (Py.lower_char c) acc), b)
  | Attrs tag attrs =>
      if Ascii.eqb c ">" then (InText "", start_tag tag attrs false b)
      else if Ascii.eqb c "/" then (SelfClose tag attrs, b)
      else if is_space c then (Attrs tag attrs, b)
      else (AttrName tag attrs (String (Py.lower_char c) ""), b)
  | AttrName tag attrs acc =>
      let key := finish_acc acc in
      if Ascii.eqb c "=" then (AttrEq tag attrs key, b)
      else if Ascii.eqb c ">"
      then (InText "", start_tag tag (dict_set key "" attrs) false b)
      else if Ascii.eqb c "/" then (SelfClose tag (dict_set key "" attrs), b)
      else if is_space c then (AfterName tag attrs key, b)
      else (AttrName tag attrs (String (Py.lower_char c) acc), b)
  | AfterName tag attrs key =>
      if Ascii.eqb c "=" then (AttrEq tag attrs key, b)
      else if Ascii.eqb c ">"
      then (InText "", start_tag tag (dict_set key "" attrs) false b)
      else if Ascii.eqb c "/" then (SelfClose tag (dict_set key "" attrs), b)
      else if is_space c then (AfterName tag attrs key, b)
      else (AttrName tag (dict_set key "" attrs) (String (Py.lower_char c) ""), b)
  | AttrEq tag attrs key =>
      if Ascii.eqb c double_quote || Ascii.eqb c "'"
      then (Quoted tag attrs key c "", b)
      else if is_space c then (AttrEq tag attrs key, b)
      else if Ascii.eqb c ">"
      then (InText "", start_tag tag (dict_set key "" attrs) false b)
      else (Unquoted tag attrs key (String c ""), b)
  | Quoted tag attrs key quote acc =>
      if Ascii.eqb c quote
      then (Attrs tag (dict_set key (finish_acc acc) attrs), b)
      else (Quoted tag attrs key quote (String c acc), b)
  | Unquoted tag attrs key acc =>
      if Ascii.eqb c ">"
      then (InText "",
            start_tag tag (dict_set key (finish_acc acc) attrs) false b)
      else if is_space c
      then (Attrs tag (dict_set key (finish_acc acc) attrs), b)
      else (Unquoted tag attrs key (String c acc), b)
  | SelfClose tag attrs =>
      if Ascii.eqb c ">" then (InText "", start_tag tag attrs true b)
      else (SelfClose tag attrs, b)
  end.

Fixpoint run (html : string) (st : mode * builder) : mode * builder :=
  match html with
  | EmptyString => st
  | String c html' => run html' (step st c)
  end.

Fixpoint close_all (fuel : nat) (b : builder) : builder :=
  match fuel, open_tags b with
  | S fuel', _ :: _ => close_all fuel' (close_top b)
  | _, _ => b
  end.

(** At the end of the input pending text is kept, an unfinished tag is
    dropped, and every open element is closed. *)
Definition parse (html : string) : list node :=
  let '(m, b) := run html (InText "", {| open_tags := []; document := [] |}) in
  let b := match m with InText acc => add_text acc b | _ => b end in
  rev (document (close_all (List.length (open_tags b)) b)).

End HtmlParser.

(** A web site that answers every request for a URL in the same way, seen
    through a session that remembers nothing but the URLs requested, the
    most recent first. *)
Definition static_site (site : string -> result Response) : Collaborators :=
  {| bracketed_host_ok := fun _ => true;
     BeautifulSoup := fun html => Ok (HtmlParser.parse html);
     BeautifulSoup_raises := fun html => Ok_not_Raise _ _;
     Session := list string;
     get_session := [];
     session_get := fun s url => (url :: s, site url);
     list_of_set := remove_dups;
     list_of_set_perm := fun l => reflexivity (remove_dups l);
     pysleep := fun _ => Ok tt |}.

(** ** URLs of the form [scheme://authority] followed by the rest *)

(** A scheme as [urlsplit] recognises it: a letter, then [scheme_chars]. *)
Definition valid_scheme (sch : string) : bool :=
  match sch with
  | EmptyString => false
  | String c0 _ => Py.is_ascii_alpha c0 && Py.forallb scheme_char sch
  end.

(** A character of an authority written without brackets: not one of the
    delimiters that end the netloc, no bracket, and none of the
    characters that [urlsplit] drops. *)
Definition authority_char (c : ascii) : bool :=
  negb (Ascii.eqb c "/" || Ascii.eqb c "?" || Ascii.eqb c "#"
        || Ascii.eqb c "[" || Ascii.eqb c "]" || unsafe_url_byte c).

(** A character of a host written in lower case, without userinfo, port
    or zone. *)
Definition host_char (c : ascii) : bool :=
  authority_char c
  && negb (Ascii.eqb c "@" || Ascii.eqb c ":" || Ascii.eqb c "%")
  && Ascii.eqb (Py.lower_char c) c.

(** What follows the authority: nothing, a path ([/...]), a query
    ([?...]) or a fragment ([#...]). *)
Definition tail_ok (t : string) : bool :=
  match t with
  | EmptyString => true
  | String c _ => Ascii.eqb c "/" || Ascii.eqb c "?" || Ascii.eqb c "#"
  end.

(** ** The form of the specification's example *)

Definition dq : string := String HtmlParser.double_quote "".

(** The markup
    [<form method=|POST| action=|/submit|><input name=|q| type=|text|></form>],
    each [|] a double quote. *)
Definition sample_form_html : string :=
  "<form method=" +:+ dq +:+ "POST" +:+ dq +:+ " action=" +:+ dq +:+ "/submit"
  +:+ dq +:+ "><input name=" +:+ dq +:+ "q" +:+ dq +:+ " type=" +:+ dq
  +:+ "text" +:+ dq +:+ "></form>".

(** Its document tree. *)
Definition sample_form_soup : list node :=
  [Tag "form" [("method", "POST"); ("action", "/submit")]
       [Tag "input" [("name", "q"); ("type", "text")] []]].

(** What the specification says of a form element and its descriptor:
    [method] is the attribute in lower case, ["get"] when it is missing;
    [action] is the attribute, or the empty string when it is missing,
    resolved against the page; there is one input descriptor for each
    [input], [textarea] and [select] below the form, with the element's
    [name], [type] and [value], each [None] when the attribute is missing. *)
Definition describes_input (input_tag : node) (i : input_info) : Prop :=
  name i = tag_get input_tag "name"
  /\ type i = tag_get input_tag "type"
  /\ value i = tag_get input_tag "value".

Definition describes_form `{Collaborators} (page_url : string)
    (form_tag : node) (f : form_info) : Prop :=
  method f = Py.lower (match tag_get form_tag "method" with
                       | Some m => m
                       | None => "get"
                       end)
  /\ urljoin page_url (match tag_get form_tag "action" with
                       | Some a => a
                       | None => ""
                       end) = Ok (action f)
  /\ Forall2 describes_input
             (find_all ["input"; "textarea"; "select"] (tag_contents form_tag))
             (inputs f).

(** A site with no page: every request fails to connect. *)
Definition offline : Collaborators :=
  static_site (fun _ => Raise RequestException).

(** ** The states of a crawl *)

(** The instance each time the loop condition is evaluated: at the start
    and after each pass that ended without an exception. *)
Inductive reachable `{Collaborators} (c0 : Crawler) : Crawler -> Prop :=
  | reach_start : reachable c0 c0
  | reach_pass c :
      reachable c0 c -> loop_cond c = true -> (crawl_body c).2 = Ok tt ->
      reachable c0 (crawl_body c).1.

(** The URL that the next pass requests from the session, if it requests
    one. *)
Definition next_fetch `{Collaborators} (c : Crawler) : option string :=
  if loop_cond c then
    match queue c with
    | [] => None
    | u :: _ =>
        let url := Py.rstrip_slash u in
        if skip_test c url then None else Some url
    end
  else None.

(** [session.get] followed by [raise_for_status]: the response when neither
    raises. *)
Definition fetched `{Collaborators} (c : Crawler) (url : string)
    : option Response :=
  match (session_get (session c) url).2 with
  | Ok r => match raise_for_status r with
            | Ok _ => Some r
            | Raise _ => None
            end
  | Raise _ => None
  end.

(** How many times the crawler printed that it failed to fetch a URL. *)
Fixpoint failed_to_fetch_lines (out : list line) : nat :=
  match out with
  | [] => 0
  | FailedToFetch _ :: out' => S (failed_to_fetch_lines out')
  | _ :: out' => failed_to_fetch_lines out'
  end.

(** The visited URLs for which no page was stored. *)
Definition failed_count `{Collaborators} (c : Crawler) : nat :=
  size (visited c ∖ dom (pages c)).

(** ** Example sites *)

(** The delay [0.2], the default of the constructor. *)
Definition default_delay : number :=
  PyFloat (S754_finite false 7205759403792794 (-55)).

(** A home page with two links of its own site, one link to another site
    and a form; page [/a] cannot be reached and the rest is not found. *)
Definition example_home : string :=
  "<a href='/a'>a</a> <a href='/b/#x'>b</a> "
  +:+ "<a href='http://other.com/c'>c</a>"
  +:+ "<form action='/search'><input name='q'></form>".

Definition example_site (url : string) : result Response :=
  if String.eqb url "http://h" then Ok (mkResponse 200 example_home)
  else if String.eqb url "http://h/a" then Raise RequestException
  else Ok (mkResponse 404 "").

Definition example : Collaborators := static_site example_site.

(** A site whose every page links to [/p]. *)
Definition one_page_site (url : string) : result Response :=
  Ok (mkResponse 200 "<a href='/p'>p</a>").

Definition one_page : Collaborators := static_site one_page_site.

(** A site whose home page holds a form with an action that [urljoin]
    rejects, and whose other pages hold a link that it rejects. *)
Definition broken_form_page : string := "<form action='//[bad'></form>".

Definition broken_link_page : string :=
  "<form><input name='q'></form><a href='//[bad'>x</a>".

Definition broken_site (url : string) : result Response :=
  if String.eqb url "http://h" then Ok (mkResponse 200 broken_form_page)
  else Ok (mkResponse 200 broken_link_page).

Definition broken : Collaborators := static_site broken_site.

(** A site of one page, seen through a parser that rejects its markup. *)
Definition rejected : Collaborators :=
  {| bracketed_host_ok := fun _ => true;
     BeautifulSoup := fun _ => Raise OtherException;
     BeautifulSoup_raises := fun _ Heq =>
       eq_ind (Raise OtherException)
              (fun r : result (list node) =>
                 match r with Raise OtherException => True | _ => False end)
              I (Raise RequestException) Heq;
     Session := list string;
     get_session := [];
     session_get := fun s url => (url :: s, Ok (mkResponse 200 "<![x y]>"));
     list_of_set := remove_dups;
     list_of_set_perm := fun l => reflexivity (remove_dups l);
     pysleep := fun _ => Ok tt |}.

(** ** Predicates on parse results and on crawler states *)

Section Predicates.

Context `{Collaborators}.

Implicit Types (c : Crawler) (url u l : string).

(** No component but the fragment holds a [#]. *)
Definition hash_free (r : ParseResult) : Prop :=
  Py.contains "#" (scheme r) = false
  /\ Py.contains "#" (netloc r) = false
  /\ Py.contains "#" (path r) = false
  /\ Py.contains "#" (params r) = false
  /\ Py.contains "#" (query r) = false.

(** What a statement leaves alone. *)
Definition same_config c c' : Prop :=
  base c' = base c /\ max_pages c' = max_pages c /\ delay c' = delay c.

(** What a statement that only touches the queue and prints no failure
    leaves alone. *)
Definition same_store c c' : Prop :=
  session c' = session c /\ visited c' = visited c /\ pages c' = pages c
  /\ forms c' = forms c
  /\ failed_to_fetch_lines (stdout c') = failed_to_fetch_lines (stdout c).

(** [urllib.parse] raises nothing but [ValueError]. *)
Definition only_value_error {A} (r : result A) : Prop :=
  forall e, r = Raise e -> e = ValueError.

(** An exception of [r], if any, is for the handler [except Exception],
    not for [except RequestException]. *)
Definition not_request_exception {A} (r : result A) : Prop :=
  r <> Raise RequestException.

(** [url] does not end in [/]. *)
Definition no_trailing_slash url : Prop :=
  Py.ends_with (Ascii.eqb "/") url = false.

(** What holds each time the loop condition is evaluated, from a freshly
    constructed crawler: pages are stored for visited URLs only, forms for
    URLs with a page only and never an empty list; visited URLs are on the
    base URL's domain; the budget bounds [visited]; stored pages and reported
    failures are no more than the visited URLs; a visited URL has no
    trailing slash and is the seed or a normalized link; the queue holds the
    seed and normalized links. *)
Definition inv c : Prop :=
  dom (pages c) ⊆ visited c
  /\ dom (forms c) ⊆ dom (pages c)
  /\ map_Forall (fun _ fs => fs <> []) (forms c)
  /\ (forall url, url ∈ visited c -> is_same_domain (base c) url = true)
  /\ (Z.of_nat (size (visited c)) <= Z.max 0 (max_pages c))%Z
  /\ size (pages c) + failed_to_fetch_lines (stdout c) <= size (visited c)
  /\ (forall url, url ∈ visited c ->
        no_trailing_slash url
        /\ (url = Py.rstrip_slash (base c) \/ exists l0, normalize l0 = Ok url))
  /\ (forall u, u ∈ queue c -> u = base c \/ exists l0, normalize l0 = Ok u).

(** A URL that is visited and has neither a page nor forms. *)
Definition marked_failed url c : Prop :=
  url ∈ visited c /\ pages c !! url = None /\ forms c !! url = None.

(** How many more URLs the budget allows. *)
Definition budget_left c : nat :=
  Z.to_nat (max_pages c - Z.of_nat (size (visited c))).

(** The URLs that the crawler printed it was fetching, the most recent
    first: the line is printed just before each [session.get]. *)
Fixpoint requested (out : list line) : list string :=
  match out with
  | [] => []
  | Fetching url :: out' => url :: requested out'
  | _ :: out' => requested out'
  end.

(** The instance when the [try] block of a pass is entered: the URL is off
    the queue and the line that it is processed is printed. *)
Definition entering c (q : list string) url : Crawler :=
  (print (Processing url) (set_queue q c).1).1.

(** A link is settled when it needs no visit any more or is waiting for
    one: it is empty, visited, queued, or off the base URL's domain. *)
Definition settled c l : Prop :=
  l = "" \/ l ∈ visited c \/ l ∈ queue c
  \/ is_same_domain (base c) l = false.

(** The links of a stored page, when the whole [try] block ran on it:
    both extractions returned and every link could be normalized. *)
Definition links_of_page url (body : string) (ls : list string) : Prop :=
  (exists fs, extract_forms body url = Ok fs)
  /\ exists links,
       extract_links body url = Ok links
       /\ Forall2 (fun l l' => normalize l = Ok l') links ls.

(** Every link of every stored page is settled. *)
Definition closed c : Prop :=
  forall url body ls l,
    pages c !! url = Some body -> links_of_page url body ls -> l ∈ ls ->
    settled c l.

(** What [forms] holds after [if forms: self.forms[url] = forms]. *)
Definition forms_after c url (fs : list form_info)
    : gmap string (list form_info) :=
  match fs with
  | [] => forms c
  | _ => <[url := fs]> (forms c)
  end.

(** The queue holds no URL twice, and holds the seed and non-empty
    normalized links only. *)
Definition queue_ok c : Prop :=
  NoDup (queue c)
  /\ forall u, u ∈ queue c ->
       u = base c \/ (u <> "" /\ exists l0, normalize l0 = Ok u).

(** The URLs requested so far are the visited ones, each requested once. *)
Definition requests_ok c : Prop :=
  NoDup (requested (stdout c))
  /\ forall u, u ∈ requested (stdout c) <-> u ∈ visited c.

(** What is kept of an earlier state [c]: its visited URLs, and for each of
    them the entries of [pages] and [forms], present or not. *)
Definition keeps c c' : Prop :=
  visited c ⊆ visited c'
  /\ forall url, url ∈ visited c ->
       pages c' !! url = pages c !! url /\ forms c' !! url = forms c !! url.

End Predicates.

(** * Properties *)

(** ** Strings *)

Section StringFacts.

Implicit Types (c d : ascii) (s t : string) (p : ascii -> bool).

Lemma contains_app c s t :
  Py.contains c (s +:+ t) = Py.contains c s || Py.contains c t.
Proof.
  induction s as [|a s IH]; simpl; [done|].
  destruct (Ascii.eqb c a); [done | apply IH].
Qed.

Lemma contains_take c n s :
  Py.contains c s = false -> Py.contains c (Py.take n s) = false.
Proof.
  revert s. induction n as [|n IH]; intros [|a s]; simpl; try done.
  destruct (Ascii.eqb c a); [done | apply IH].
Qed.

Lemma contains_drop c n s :
  Py.contains c s = false -> Py.contains c (Py.drop n s) = false.
Proof.
  revert s. induction n as [|n IH]; intros [|a s]; simpl; try done.
  destruct (Ascii.eqb c a); [done | apply IH].
Qed.

Lemma contains_partition c d s :
  Py.contains c s = false ->
  Py.contains c (Py.partition d s).1 = false
  /\ Py.contains c (Py.partition d s).2 = false.
Proof.
  induction s as [|a s IH]; simpl; [done|].
  destruct (Ascii.eqb c a) eqn:Hca; [done|]. intros Hs.
  destruct (Ascii.eqb d a); [done|].
  destruct (IH Hs) as [IH1 IH2]. destruct (Py.partition d s) as [h t].
  simpl in *. by rewrite Hca.
Qed.

Lemma partition_head_free c s : Py.contains c (Py.partition c s).1 = false.
Proof.
  induction s as [|a s IH]; simpl; [done|].
  destruct (Ascii.eqb c a) eqn:Hca; [done|].
  destruct (Py.partition c s) as [h t]. simpl in *. by rewrite Hca.
Qed.

Lemma contains_rstrip c p s :
  Py.contains c s = false -> Py.contains c (Py.rstrip p s) = false.
Proof.
  induction s as [|a s IH]; simpl; [done|].
  destruct (Ascii.eqb c a) eqn:Hca; [done|]. intros Hs.
  specialize (IH Hs). destruct (Py.rstrip p s) eqn:Hr.
  - destruct (p a); simpl; [done | by rewrite Hca].
  - simpl in *. by rewrite Hca.
Qed.

Lemma rstrip_ends p s : Py.ends_with p (Py.rstrip p s) = false.
Proof.
  induction s as [|a s IH]; simpl; [done|].
  destruct (Py.rstrip p s) eqn:Hr.
  - destruct (p a) eqn:Hp; simpl; [done | by rewrite Hp].
  - simpl in *. done.
Qed.

Lemma rstrip_fixed p s : Py.ends_with p s = false -> Py.rstrip p s = s.
Proof.
  induction s as [|a s IH]; simpl; [done|].
  destruct s as [|b s].
  - simpl. by intros ->.
  - intros Hs. rewrite (IH Hs). done.
Qed.

(** The netloc that [_splitnetloc] cuts off holds none of the three
    delimiters. *)
Lemma splitnetloc_head c s :
  c = "/"%char \/ c = "?"%char \/ c = "#"%char ->
  Py.contains c (splitnetloc s).1 = false.
Proof.
  intros Hc. induction s as [|a s IH]; simpl; [done|].
  destruct (Ascii.eqb a "/" || Ascii.eqb a "?" || Ascii.eqb a "#") eqn:Hd;
    [done|].
  destruct (splitnetloc s) as [n r]. simpl in *.
  destruct (Ascii.eqb c a) eqn:Hca; [|done].
  apply Ascii.eqb_eq in Hca as <-.
  destruct Hc as [-> | [-> | ->]]; by simpl in Hd.
Qed.

Lemma scheme_char_lower_no_hash c :
  scheme_char c = true -> Ascii.eqb "#" (Py.lower_char c) = false.
Proof. destruct c as [[] [] [] [] [] [] [] []]; vm_compute; done. Qed.

Lemma scheme_lower_no_hash s :
  Py.forallb scheme_char s = true -> Py.contains "#" (Py.lower s) = false.
Proof.
  induction s as [|a s IH]; [done|].
  cbn [Py.forallb Py.lower Py.contains].
  intros [Ha Hs]%andb_prop.
  rewrite (scheme_char_lower_no_hash a Ha). by apply IH.
Qed.

End StringFacts.

(** ** [urllib.parse]: where a [#] can be *)

Section UrlFacts.

Context `{Collaborators}.

Implicit Types (url s : string) (r : ParseResult).

Lemma split_at_hash s :
  Py.contains "#" (if Py.contains "#" s then Py.partition "#" s else (s, "")).1
  = false.
Proof.
  destruct (Py.contains "#" s) eqn:Hs; [apply partition_head_free | done].
Qed.

Lemma urlsplit_hash_free url r : urlsplit url "" = Ok r -> hash_free r.
Proof.
  unfold urlsplit. cbn [Py.lstrip Py.rstrip Py.remove].
  set (u := Py.remove unsafe_url_byte (Py.lstrip c0_control_or_space url)).
  set (su := match Py.find ":" u, u with
             | Some (S i), String c0 _ =>
                 if Py.is_ascii_alpha c0
                    && Py.forallb scheme_char (Py.take (S i) u)
                 then (Py.lower (Py.take (S i) u), Py.drop (S i + 1) u)
                 else ("", u)
             | _, _ => ("", u)
             end).
  assert (Py.contains "#" su.1 = false) as Hscheme.
  { subst su. destruct (Py.find ":" u) as [[|i]|]; [done| |done].
    destruct u as [|c0 u']; [done|].
    destruct (Py.is_ascii_alpha c0 &&
              Py.forallb scheme_char (Py.take (S i) (String c0 u'))) eqn:Hc;
      [|done].
    apply andb_prop in Hc as [_ Hc]. by apply scheme_lower_no_hash. }
  destruct su as [sch rest]. simpl in Hscheme.
  set (nr := if Py.startswith "//" rest then _ else _).
  assert (forall n t, nr = Ok (n, t) -> Py.contains "#" n = false) as Hnet.
  { subst nr. intros n t. destruct (Py.startswith "//" rest).
    - pose proof (splitnetloc_head "#" (Py.drop 2 rest)) as Hh.
      destruct (splitnetloc (Py.drop 2 rest)) as [n' t'].
      repeat case_match; try done. intros [= <- <-]. apply Hh. auto.
    - by intros [= <- <-]. }
  destruct nr as [[n t]|e]; [|done]. simpl.
  specialize (Hnet n t eq_refl).
  pose proof (split_at_hash t) as Hpath.
  destruct (if Py.contains "#" t then Py.partition "#" t else (t, ""))
    as [t1 frag]. simpl in Hpath.
  assert (Py.contains "#"
            (if Py.contains "?" t1 then Py.partition "?" t1 else (t1, "")).1
          = false
          /\ Py.contains "#"
            (if Py.contains "?" t1 then Py.partition "?" t1 else (t1, "")).2
          = false) as [Hp Hq].
  { destruct (Py.contains "?" t1); [by apply contains_partition | done]. }
  destruct (if Py.contains "?" t1 then Py.partition "?" t1 else (t1, ""))
    as [p q]. intros [= <-]. by repeat split.
Qed.

Lemma splitparams_hash_free s :
  Py.contains "#" s = false ->
  Py.contains "#" (splitparams s).1 = false
  /\ Py.contains "#" (splitparams s).2 = false.
Proof.
  intros Hs. unfold splitparams.
  repeat case_match; simpl; auto using contains_take, contains_drop.
Qed.

Lemma urlparse_hash_free url r : urlparse url = Ok r -> hash_free r.
Proof.
  unfold urlparse, urlparse_with.
  destruct (urlsplit url "") as [r0|e] eqn:Hsplit; [|done]. simpl.
  apply urlsplit_hash_free in Hsplit as (Hs & Hn & Hp & Ha & Hq).
  destruct (str_in (scheme r0) uses_params && Py.contains ";" (path r0));
    [|by intros [= <-]].
  destruct (splitparams_hash_free _ Hp) as [H1 H2].
  destruct (splitparams (path r0)) as [p a]. intros [= <-]. by repeat split.
Qed.

Lemma urlunsplit_hash_free sch n p q :
  Py.contains "#" sch = false -> Py.contains "#" n = false ->
  Py.contains "#" p = false -> Py.contains "#" q = false ->
  Py.contains "#" (urlunsplit sch n p q "") = false.
Proof.
  intros Hs Hn Hp Hq. unfold urlunsplit. simpl.
  repeat case_match;
    rewrite ?contains_app, ?Hs, ?Hn, ?Hp, ?Hq; simpl;
    rewrite ?contains_app, ?Hs, ?Hn, ?Hp, ?Hq; done.
Qed.

(** What [urldefrag] returns as the URL holds no [#]. *)
Lemma urldefrag_hash_free url d :
  urldefrag url = Ok d -> Py.contains "#" d.1 = false.
Proof.
  unfold urldefrag. destruct (Py.contains "#" url) eqn:Hu;
    [|by intros [= <-]].
  destruct (urlparse url) as [r|e] eqn:Hr; [|done]. simpl. intros [= <-].
  apply urlparse_hash_free in Hr as (Hs & Hn & Hp & Ha & Hq).
  unfold urlunparse. simpl. apply urlunsplit_hash_free; try done.
  destruct (Py.truthy (params r)); [|done].
  by rewrite !contains_app, Hp, Ha.
Qed.

(** A URL without [#] is its own defragmented form. *)
Lemma urldefrag_no_hash url :
  Py.contains "#" url = false -> urldefrag url = Ok (url, "").
Proof. unfold urldefrag. by intros ->. Qed.

Lemma normalize_hash_free url v :
  normalize url = Ok v -> Py.contains "#" v = false.
Proof.
  unfold normalize. destruct (urldefrag url) as [d|e] eqn:Hd; [|done].
  simpl. intros [= <-]. apply contains_rstrip.
  by apply urldefrag_hash_free in Hd.
Qed.

Lemma normalize_no_trailing_slash url v :
  normalize url = Ok v -> Py.ends_with (Ascii.eqb "/") v = false.
Proof.
  unfold normalize. destruct (urldefrag url) as [d|e]; [|done].
  simpl. intros [= <-]. apply rstrip_ends.
Qed.

(** C9. Normalizing a link ([urldefrag(l)[0].rstrip('/')], line 93) twice
    is the same as normalizing it once: the second pass returns the
    string that the first one returned, and it raises whatever the first one
    raised. *)
Theorem normalize_idempotent (u : string) :
  (v <- normalize u ;; normalize v) = normalize u.
Proof.
  destruct (normalize u) as [v|e] eqn:Hu; [|done]. simpl.
  pose proof (normalize_hash_free _ _ Hu) as Hhash.
  pose proof (normalize_no_trailing_slash _ _ Hu) as Hslash.
  unfold normalize. rewrite (urldefrag_no_hash _ Hhash). simpl.
  unfold Py.rstrip_slash. by rewrite rstrip_fixed.
Qed.

End UrlFacts.

(** ** [is_same_domain] *)

Section SameDomain.

Context `{Collaborators}.

Implicit Types (c : ascii) (s t a sch : string) (p : ascii -> bool).

Lemma lstrip_id p c s : p c = false -> Py.lstrip p (String c s) = String c s.
Proof. simpl. by intros ->. Qed.

Lemma remove_app p s t :
  Py.remove p (s +:+ t) = Py.remove p s +:+ Py.remove p t.
Proof.
  induction s as [|c s IH]; simpl; [done|].
  destruct (p c); simpl; by rewrite IH.
Qed.

Lemma remove_id p s :
  Py.forallb (fun c => negb (p c)) s = true -> Py.remove p s = s.
Proof.
  induction s as [|c s IH]; simpl; [done|].
  intros [Hc Hs]%andb_prop. apply negb_true_iff in Hc as ->. by rewrite IH.
Qed.

Lemma forallb_impl (p q : ascii -> bool) s :
  (forall c, p c = true -> q c = true) ->
  Py.forallb p s = true -> Py.forallb q s = true.
Proof.
  intros Hpq. induction s as [|c s IH]; simpl; [done|].
  intros [Hc Hs]%andb_prop. by rewrite (Hpq c Hc), IH.
Qed.

Lemma forallb_not_contains p c s :
  p c = false -> Py.forallb p s = true -> Py.contains c s = false.
Proof.
  intros Hc. induction s as [|d s IH]; simpl; [done|].
  intros [Hd Hs]%andb_prop.
  destruct (Ascii.eqb c d) eqn:Hcd; [|by apply IH].
  apply Ascii.eqb_eq in Hcd as <-. congruence.
Qed.

Lemma find_app c s t :
  Py.contains c s = false ->
  Py.find c (s +:+ String c t) = Some (String.length s).
Proof.
  induction s as [|d s IH]; simpl.
  - by rewrite Ascii.eqb_refl.
  - destruct (Ascii.eqb c d); [done|]. intros Hs. by rewrite IH.
Qed.

Lemma take_app s t : Py.take (String.length s) (s +:+ t) = s.
Proof.
  induction s as [|d s IH]; simpl; [by destruct t | by rewrite IH].
Qed.

Lemma drop_app_S s c t : Py.drop (String.length s + 1) (s +:+ String c t) = t.
Proof. induction s as [|d s IH]; simpl; [by destruct t | done]. Qed.

Lemma splitnetloc_app a t :
  Py.forallb authority_char a = true -> tail_ok t = true ->
  splitnetloc (a +:+ t) = (a, t).
Proof.
  intros Ha Ht. induction a as [|c a IH]; simpl.
  - destruct t as [|c t]; [done|]. simpl in *. by rewrite Ht.
  - simpl in Ha. apply andb_prop in Ha as [Hc Ha]. rewrite (IH Ha).
    assert ((Ascii.eqb c "/" || Ascii.eqb c "?" || Ascii.eqb c "#") = false)
      as ->; [|done].
    clear -Hc. destruct c as [[] [] [] [] [] [] [] []]; vm_compute in *; done.
Qed.

Lemma tail_ok_remove t :
  tail_ok t = true -> tail_ok (Py.remove unsafe_url_byte t) = true.
Proof.
  destruct t as [|c t]; [done|]. simpl. intros Hc.
  assert (unsafe_url_byte c = false) as ->; [|done].
  clear -Hc. destruct c as [[] [] [] [] [] [] [] []]; vm_compute in *; done.
Qed.

(** The parse of [sch://a] followed by a path, a query or a fragment:
    the netloc is [a]. *)
Lemma urlparse_compose sch a t :
  valid_scheme sch = true -> Py.forallb authority_char a = true ->
  tail_ok t = true ->
  exists r, urlparse (sch +:+ "://" +:+ a +:+ t) = Ok r /\ netloc r = a.
Proof.
  intros Hsch Ha Ht.
  destruct sch as [|c0 sch']; [done|].
  apply andb_prop in Hsch as [Halpha Hchars].
  set (sch := String c0 sch') in *.
  assert (urlsplit (sch +:+ "://" +:+ a +:+ t) ""
          = (let t' := Py.remove unsafe_url_byte t in
             let pf := if Py.contains "#" t' then Py.partition "#" t'
                       else (t', "") in
             let pq := if Py.contains "?" pf.1 then Py.partition "?" pf.1
                       else (pf.1, "") in
             Ok (mkParseResult (Py.lower sch) a pq.1 "" pq.2 pf.2))) as Hsplit.
  { unfold urlsplit. cbn [Py.lstrip Py.rstrip Py.remove].
    assert (c0_control_or_space c0 = false) as Hc0.
    { clear -Halpha. destruct c0 as [[] [] [] [] [] [] [] []];
        vm_compute in *; done. }
    subst sch. change (String c0 sch' +:+ "://" +:+ a +:+ t)
      with (String c0 (sch' +:+ "://" +:+ a +:+ t)).
    rewrite (lstrip_id _ _ _ Hc0).
    change (String c0 (sch' +:+ "://" +:+ a +:+ t))
      with (String c0 sch' +:+ String ":" ("//" +:+ a +:+ t)).
    set (sch := String c0 sch') in *.
    rewrite remove_app.
    rewrite (remove_id _ sch); cycle 1.
    { eapply forallb_impl; [|exact Hchars]. clear. intros c Hc.
      destruct c as [[] [] [] [] [] [] [] []]; vm_compute in *; done. }
    change (Py.remove unsafe_url_byte (String ":" ("//" +:+ a +:+ t)))
      with (String ":" ("//" +:+ Py.remove unsafe_url_byte (a +:+ t))).
    rewrite remove_app.
    rewrite (remove_id _ a); cycle 1.
    { eapply forallb_impl; [|exact Ha]. clear. intros c Hc.
      destruct c as [[] [] [] [] [] [] [] []]; vm_compute in *; done. }
    set (t' := Py.remove unsafe_url_byte t).
    assert (Py.contains ":" sch = false) as Hcolon.
    { eapply forallb_not_contains; [|exact Hchars]. done. }
    rewrite (find_app _ _ _ Hcolon).
    subst sch. cbn [String.length]. cbn [append].
    change (String c0 (sch' +:+ String ":" ("//" +:+ a +:+ t')))
      with (String c0 sch' +:+ String ":" ("//" +:+ a +:+ t')).
    set (sch := String c0 sch') in *.
    change (S (String.length sch')) with (String.length sch).
    rewrite take_app, drop_app_S, Hchars.
    assert (forall x, sch +:+ x = String c0 (sch' +:+ x)) as Hhead by done.
    rewrite (Hhead (String ":" _)). cbv iota. rewrite Halpha. cbn [andb].
    change (Py.startswith "//" ("//" +:+ a +:+ t')) with true.
    change (Py.drop 2 ("//" +:+ a +:+ t')) with (a +:+ t').
    cbv zeta.
    rewrite splitnetloc_app by (done || by apply tail_ok_remove).
    assert (Py.contains "[" a = false) as ->.
    { eapply forallb_not_contains; [|exact Ha]. done. }
    assert (Py.contains "]" a = false) as ->.
    { eapply forallb_not_contains; [|exact Ha]. done. }
    cbn [andb orb negb bind].
    destruct (if Py.contains "#" t' then _ else _) as [p1 f1].
    cbn [fst snd]. by destruct (if Py.contains "?" p1 then _ else _). }
  unfold urlparse, urlparse_with. rewrite Hsplit. cbn zeta.
  cbn [bind scheme path netloc query fragment].
  destruct (_ && _); [|by eexists].
  destruct (splitparams _). by eexists.
Qed.

Lemma is_same_domain_parsed base u b r :
  urlparse base = Ok b -> urlparse u = Ok r ->
  is_same_domain base u = String.eqb (netloc b) (netloc r).
Proof. unfold is_same_domain. by intros -> ->. Qed.

Lemma is_same_domain_unparsable base u e :
  urlparse base = Raise e \/ urlparse u = Raise e ->
  is_same_domain base u = false.
Proof.
  unfold is_same_domain. intros [-> | ->]; simpl.
  - by destruct e.
  - destruct (urlparse base) as [b|e0]; simpl; [by destruct e | by destruct e0].
Qed.

Lemma is_same_domain_true base u :
  is_same_domain base u = true <->
  exists b r, urlparse base = Ok b /\ urlparse u = Ok r /\ netloc b = netloc r.
Proof.
  unfold is_same_domain.
  destruct (urlparse base) as [b|e]; simpl.
  - destruct (urlparse u) as [r|e]; simpl.
    + rewrite String.eqb_eq. naive_solver.
    + split; [by destruct e | by intros (? & ? & _ & ? & _)].
  - split; [by destruct e | by intros (? & ? & ? & _)].
Qed.

Lemma rpartition_tail_absent c s :
  Py.contains c s = false -> Py.rpartition_tail c s = s.
Proof.
  destruct s as [|d s]; simpl; [done|].
  destruct (Ascii.eqb c d); [done|]. by intros ->.
Qed.

Lemma partition_absent c s :
  Py.contains c s = false -> Py.partition c s = (s, "").
Proof.
  induction s as [|d s IH]; simpl; [done|].
  destruct (Ascii.eqb c d); [done|]. intros Hs. by rewrite (IH Hs).
Qed.

Lemma lower_fixed s :
  Py.forallb (fun c => Ascii.eqb (Py.lower_char c) c) s = true ->
  Py.lower s = s.
Proof.
  induction s as [|c s IH]; simpl; [done|].
  intros [Hc Hs]%andb_prop. apply Ascii.eqb_eq in Hc. by rewrite Hc, IH.
Qed.

Lemma host_char_authority_char c :
  host_char c = true -> authority_char c = true.
Proof. unfold host_char. by intros [[? _]%andb_prop _]%andb_prop. Qed.

(** The host of a netloc that is a host in lower case and nothing else is
    the netloc. *)
Lemma hostname_plain r :
  Py.forallb host_char (netloc r) = true -> netloc r <> "" ->
  hostname r = Some (netloc r).
Proof.
  intros Hchars Hne. unfold hostname, hostinfo.
  assert (forall c, host_char c = false -> Py.contains c (netloc r) = false)
    as Hfree.
  { intros c Hc. by apply (forallb_not_contains host_char). }
  rewrite (rpartition_tail_absent "@") by by apply Hfree.
  rewrite (Hfree "["%char) by done.
  rewrite (partition_absent ":") by by apply Hfree.
  cbn [fst]. rewrite (Hfree "%"%char) by done.
  destruct (netloc r) as [|c a] eqn:Hn; [done|]. cbn [Py.truthy negb].
  f_equal. apply lower_fixed. eapply forallb_impl; [|exact Hchars].
  clear. unfold host_char. by intros c [_ ?]%andb_prop.
Qed.

(** C7, as the code has it. [is_same_domain(base, u)] compares the
    authority components (netloc: userinfo, host and port as written) that
    [urlparse] finds in the two URLs, not their hosts:
    - it is [true] exactly when both URLs parse and their netlocs are the
      same string;
    - hence it is [false] whenever both URLs parse and their hosts
      ([hostname]) differ;
    - for URLs written [scheme://authority] followed by any path, query or
      fragment, the answer is [true] exactly when the two authorities are the
      same string, whatever the schemes and what follows the authority;
    - when each authority is a host in lower case and nothing else, that
      host is the [hostname], and the answer is [true] exactly when the hosts
      match;
    - when [urlparse] raises on either URL the answer is [false], and nothing
      is raised. *)
Theorem is_same_domain_compares_netloc :
  (forall base u,
      is_same_domain base u = true <->
      exists b r,
        urlparse base = Ok b /\ urlparse u = Ok r /\ netloc b = netloc r)
  /\ (forall base u b r,
         urlparse base = Ok b -> urlparse u = Ok r ->
         hostname b <> hostname r -> is_same_domain base u = false)
  /\ (forall sch sch' a a' t t',
         valid_scheme sch = true -> valid_scheme sch' = true ->
         Py.forallb authority_char a = true ->
         Py.forallb authority_char a' = true ->
         tail_ok t = true -> tail_ok t' = true ->
         is_same_domain (sch +:+ "://" +:+ a +:+ t)
                        (sch' +:+ "://" +:+ a' +:+ t')
         = String.eqb a a')
  /\ (forall sch sch' h h' t t',
         valid_scheme sch = true -> valid_scheme sch' = true ->
         Py.forallb host_char h = true -> Py.forallb host_char h' = true ->
         h <> "" -> h' <> "" ->
         tail_ok t = true -> tail_ok t' = true ->
         exists b r,
           urlparse (sch +:+ "://" +:+ h +:+ t) = Ok b
           /\ urlparse (sch' +:+ "://" +:+ h' +:+ t') = Ok r
           /\ hostname b = Some h /\ hostname r = Some h'
           /\ (is_same_domain (sch +:+ "://" +:+ h +:+ t)
                              (sch' +:+ "://" +:+ h' +:+ t') = true
               <-> hostname b = hostname r))
  /\ (forall base u e,
         urlparse base = Raise e \/ urlparse u = Raise e ->
         is_same_domain base u = false).
Proof.
  split_and!.
  - apply is_same_domain_true.
  - intros base u b r Hb Hr Hhost.
    rewrite (is_same_domain_parsed _ _ _ _ Hb Hr).
    apply String.eqb_neq. intros Hn. apply Hhost.
    unfold hostname, hostinfo. by rewrite Hn.
  - intros sch sch' a a' t t' Hs Hs' Ha Ha' Ht Ht'.
    destruct (urlparse_compose sch a t Hs Ha Ht) as (b & Hb & <-).
    destruct (urlparse_compose sch' a' t' Hs' Ha' Ht') as (r & Hr & <-).
    apply (is_same_domain_parsed _ _ _ _ Hb Hr).
  - intros sch sch' h h' t t' Hs Hs' Hh Hh' Hne Hne' Ht Ht'.
    destruct (urlparse_compose sch h t Hs) as (b & Hb & Hnb);
      [by eapply forallb_impl; [apply host_char_authority_char|] | done |].
    destruct (urlparse_compose sch' h' t' Hs') as (r & Hr & Hnr);
      [by eapply forallb_impl; [apply host_char_authority_char|] | done |].
    exists b, r.
    assert (hostname b = Some h) as Hhb.
    { rewrite <- Hnb. apply hostname_plain; by rewrite Hnb. }
    assert (hostname r = Some h') as Hhr.
    { rewrite <- Hnr. apply hostname_plain; by rewrite Hnr. }
    split_and!; [done..|].
    rewrite (is_same_domain_parsed _ _ _ _ Hb Hr), Hnb, Hnr, Hhb, Hhr.
    rewrite String.eqb_eq. split; [by intros -> | by intros [= ->]].
  - apply is_same_domain_unparsable.
Qed.

End SameDomain.

(** ** [extract_forms] *)

Section ExtractForms.

Context `{Collaborators}.

Lemma mapM_Forall2 {A B} (f : A -> result B) xs ys :
  mapM f xs = Ok ys -> Forall2 (fun x y => f x = Ok y) xs ys.
Proof.
  revert ys. induction xs as [|x xs IH]; simpl; intros ys.
  - intros [= <-]. constructor.
  - destruct (f x) as [y|e] eqn:Hx; [|done]. simpl.
    destruct (mapM f xs) as [ys'|e]; [|done]. simpl. intros [= <-].
    constructor; [done | by apply IH].
Qed.

Lemma mapM_Ok {A B} (f : A -> result B) xs :
  Forall (fun x => exists y, f x = Ok y) xs -> exists ys, mapM f xs = Ok ys.
Proof.
  induction 1 as [|x xs [y Hy] _ [ys Hys]]; simpl; [by eexists|].
  rewrite Hy, Hys. by eexists.
Qed.

Lemma Forall2_map_graph {A B} (R : A -> B -> Prop) (f : A -> B) xs :
  (forall x, R x (f x)) -> Forall2 R xs (map f xs).
Proof. intros Hf. induction xs; simpl; by constructor. Qed.

(** An empty reference resolves to the base itself. *)
Lemma urljoin_empty base : urljoin base "" = Ok base.
Proof. unfold urljoin. by destruct base. Qed.

Lemma tag_get_default_match tag key default :
  tag_get_default tag key default
  = match tag_get tag key with Some v => v | None => default end.
Proof. done. Qed.

Lemma mapM_Ok_all {A B} (f : A -> result B) xs ys :
  mapM f xs = Ok ys -> Forall (fun x => exists y, f x = Ok y) xs.
Proof.
  intros Hmap%mapM_Forall2.
  induction Hmap as [|x y xs ys Hxy _ IH]; constructor; eauto.
Qed.

(** C8. [extract_forms] returns one descriptor for each [form] element of
    the document that the parser built, in document order, and each
    descriptor describes its element as the specification says
    ([describes_form]); a missing or empty [action] gives the page URL
    itself; the function returns exactly when the parser returns the
    document and every [action] can be resolved, and raises what the parser
    raises when the parser rejects the markup; and on the form of the
    specification's example, on page [http://h/p], it returns exactly the
    descriptor with method [post], action [http://h/submit] and the one
    input [q] of type [text] with no value. *)
Theorem extract_forms_describes :
  (forall html page_url fs,
      extract_forms html page_url = Ok fs ->
      exists soup,
        BeautifulSoup html = Ok soup
        /\ Forall2 (describes_form page_url) (find_all ["form"] soup) fs)
  /\ (forall page_url form_tag f,
         describes_form page_url form_tag f ->
         tag_get form_tag "action" = None
         \/ tag_get form_tag "action" = Some "" ->
         action f = page_url)
  /\ (forall html page_url,
         (exists fs, extract_forms html page_url = Ok fs) <->
         exists soup,
           BeautifulSoup html = Ok soup
           /\ Forall (fun form_tag =>
                        exists a, urljoin page_url
                                    (tag_get_default form_tag "action" "")
                                  = Ok a)
                     (find_all ["form"] soup))
  /\ (forall html page_url e,
         BeautifulSoup html = Raise e ->
         extract_forms html page_url = Raise e)
  /\ (BeautifulSoup sample_form_html = Ok sample_form_soup ->
      extract_forms sample_form_html "http://h/p"
      = Ok [ {| method := "post";
                action := "http://h/submit";
                inputs := [ {| name := Some "q";
                               type := Some "text";
                               value := None |} ] |} ]).
Proof.
  split_and!.
  - intros html page_url fs Hfs. unfold extract_forms in Hfs.
    destruct (BeautifulSoup html) as [soup|e]; [|done]. simpl in Hfs.
    exists soup. split; [done|].
    apply mapM_Forall2 in Hfs.
    eapply Forall2_impl; [exact Hfs|]. intros form_tag f Hf. simpl in Hf.
    rewrite !tag_get_default_match in Hf.
    destruct (urljoin page_url _) as [a|e] eqn:Ha; [|done].
    simpl in Hf. injection Hf as <-. repeat split; simpl; [done|].
    apply Forall2_map_graph. done.
  - intros page_url form_tag f (_ & Haction & _) [Hnone | Hempty].
    + rewrite Hnone, urljoin_empty in Haction. congruence.
    + rewrite Hempty, urljoin_empty in Haction. congruence.
  - intros html page_url. unfold extract_forms.
    destruct (BeautifulSoup html) as [soup|e]; simpl.
    + split.
      * intros [fs Hfs]. exists soup. split; [done|].
        apply mapM_Ok_all in Hfs.
        eapply Forall_impl; [exact Hfs|]. intros form_tag [f Hf].
        simpl in Hf. destruct (urljoin page_url _) as [a|e]; [|done].
        by exists a.
      * intros (soup' & [= <-] & Hall). apply mapM_Ok.
        eapply Forall_impl; [exact Hall|]. intros form_tag [a Ha].
        simpl in Ha. rewrite Ha. by eexists.
    + split; [by intros [fs ?] | by intros (soup & ? & _)].
  - intros html page_url e Hsoup. unfold extract_forms. by rewrite Hsoup.
  - intros Hsoup. unfold extract_forms. rewrite Hsoup. reflexivity.
Qed.

End ExtractForms.

(** On the tree builder of [HtmlParser] the example needs no assumption. *)
Lemma extract_forms_describes_witness :
  @extract_forms offline sample_form_html "http://h/p"
  = Ok [ {| method := "post";
            action := "http://h/submit";
            inputs := [ {| name := Some "q";
                           type := Some "text";
                           value := None |} ] |} ].
Proof.
  apply (proj2 (proj2 (proj2 (proj2 (@extract_forms_describes offline))))).
  vm_compute. reflexivity.
Defined.

(** ** One pass of the loop *)

Section OnePass.

Context `{Collaborators}.

Implicit Types (c : Crawler) (url u l : string) (q : list string).

Lemma bind_only_value_error {A B} (r : result A) (k : A -> result B) :
  only_value_error r -> (forall a, only_value_error (k a)) ->
  only_value_error (bind r k).
Proof.
  intros Hr Hk e. destruct r as [a|e']; simpl; [apply Hk|].
  intros [= <-]. by apply Hr.
Qed.

Lemma Ok_only_value_error {A} (a : A) : only_value_error (Ok a).
Proof. by intros e. Qed.

Lemma urlsplit_only_value_error url sch : only_value_error (urlsplit url sch).
Proof.
  unfold urlsplit. cbv zeta.
  destruct (match Py.find ":" _, _ with Some (S _), String _ _ => _
            | _, _ => _ end) as [sch' rest].
  apply bind_only_value_error.
  - destruct (Py.startswith "//" rest); [|apply Ok_only_value_error].
    destruct (splitnetloc (Py.drop 2 rest)) as [n t].
    destruct (_ || _); [by intros e [= <-]|].
    destruct (_ && _); [by intros e [= <-] | apply Ok_only_value_error].
  - intros [n t]. destruct (if Py.contains "#" t then _ else _) as [t1 f].
    destruct (if Py.contains "?" t1 then _ else _) as [t2 q].
    apply Ok_only_value_error.
Qed.

Lemma urlparse_only_value_error url sch :
  only_value_error (urlparse_with url sch).
Proof.
  apply bind_only_value_error; [apply urlsplit_only_value_error|].
  intros r e. by repeat case_match.
Qed.

Lemma urljoin_only_value_error b url : only_value_error (urljoin b url).
Proof.
  unfold urljoin. repeat (case_match; [apply Ok_only_value_error|]).
  apply bind_only_value_error; [apply urlparse_only_value_error|]. intros rb.
  apply bind_only_value_error; [apply urlparse_only_value_error|]. intros ru.
  intros e. by repeat case_match.
Qed.

Lemma normalize_only_value_error l : only_value_error (normalize l).
Proof.
  apply bind_only_value_error; [|intros; apply Ok_only_value_error].
  unfold urldefrag. case_match; [|apply Ok_only_value_error].
  apply bind_only_value_error; [apply urlparse_only_value_error|].
  intros; apply Ok_only_value_error.
Qed.

Lemma mapM_only_value_error {A B} (f : A -> result B) xs :
  (forall x, only_value_error (f x)) -> only_value_error (mapM f xs).
Proof.
  intros Hf. induction xs as [|x xs IH]; simpl; [apply Ok_only_value_error|].
  apply bind_only_value_error; [apply Hf|]. intros y.
  apply bind_only_value_error; [apply IH|]. intros; apply Ok_only_value_error.
Qed.

Lemma only_value_error_not_request {A} (r : result A) :
  only_value_error r -> not_request_exception r.
Proof. intros Hr Heq. by specialize (Hr _ Heq). Qed.

(** The extraction functions raise what the parser raises, or the
    [ValueError] of [urljoin]: no [RequestException]. *)
Lemma extract_forms_not_request html url :
  not_request_exception (extract_forms html url).
Proof.
  unfold extract_forms. pose proof (BeautifulSoup_raises html) as Hsoup.
  destruct (BeautifulSoup html) as [soup|e]; simpl;
    [|intros [= ->]; by apply Hsoup].
  apply only_value_error_not_request, mapM_only_value_error. intros tag.
  apply bind_only_value_error; [apply urljoin_only_value_error|].
  intros; apply Ok_only_value_error.
Qed.

Lemma extract_links_not_request html url :
  not_request_exception (extract_links html url).
Proof.
  unfold extract_links. pose proof (BeautifulSoup_raises html) as Hsoup.
  destruct (BeautifulSoup html) as [soup|e]; simpl;
    [|intros [= ->]; by apply Hsoup].
  apply only_value_error_not_request.
  apply bind_only_value_error; [|intros; apply Ok_only_value_error].
  apply mapM_only_value_error. intros tag. apply urljoin_only_value_error.
Qed.

Lemma for_each_enqueue_cons l0 links c :
  for_each (l0 :: links) enqueue_link c
  = match normalize l0 with
    | Raise e => (c, Raise e)
    | Ok l =>
        if Py.truthy l && negb (bool_decide (l ∈ visited c))
           && negb (bool_decide (l ∈ queue c))
        then for_each links enqueue_link
                      (print (Added l) (queue_append l c).1).1
        else for_each links enqueue_link c
    end.
Proof.
  simpl. unfold mbind, enqueue_link, mbind, lift.
  destruct (normalize l0) as [l|e]; [|done].
  by destruct (Py.truthy l && negb (bool_decide (l ∈ visited c))
               && negb (bool_decide (l ∈ queue c))).
Qed.

(** The loop over the links only appends normalized links to the queue. *)
Lemma for_each_enqueue links c :
  let c' := (for_each links enqueue_link c).1 in
  same_config c c' /\ same_store c c'
  /\ only_value_error (for_each links enqueue_link c).2
  /\ exists new,
       queue c' = (queue c ++ new)%list
       /\ Forall (fun l => exists l0, normalize l0 = Ok l) new.
Proof.
  revert c. induction links as [|l0 links IH]; intros c.
  { simpl. repeat split; [by intros e|]. exists []. by rewrite app_nil_r. }
  rewrite for_each_enqueue_cons.
  destruct (normalize l0) as [l|e] eqn:Hl.
  2:{ simpl. repeat split.
      - intros e' [= <-]. eapply normalize_only_value_error, Hl.
      - exists []. by rewrite app_nil_r. }
  destruct (Py.truthy l && negb (bool_decide (l ∈ visited c))
            && negb (bool_decide (l ∈ queue c))); [|apply IH].
  destruct (IH (print (Added l) (queue_append l c).1).1)
    as ((?&?&?) & (?&?&?&?&?) & Hv & new & Hq & Hnew).
  simpl in *. repeat split; try done.
  exists (l :: new). split; [by rewrite Hq, <- app_assoc|].
  constructor; [by exists l0 | done].
Qed.

(** A pass that skips its URL only takes it off the queue. *)
Lemma crawl_body_skip c u q :
  queue c = u :: q -> skip_test c (Py.rstrip_slash u) = true ->
  let c' := (crawl_body c).1 in
  same_config c c' /\ same_store c c' /\ queue c' = q
  /\ (crawl_body c).2 = Ok tt.
Proof.
  intros Hq Hskip. unfold crawl_body, mbind, queue_pop. rewrite Hq. simpl.
  change (skip_test _ (Py.rstrip_slash u))
    with (skip_test c (Py.rstrip_slash u)).
  rewrite Hskip. simpl. by repeat split.
Qed.

(** The handlers print one line; only the first one counts as a failure to
    fetch. *)
Lemma handlers_effect url (cr : Crawler * result unit) :
  let c2 := (match cr.2 with
             | Ok _ => (cr.1, Ok tt)
             | Raise RequestException => print (FailedToFetch url) cr.1
             | Raise _ => print (UnexpectedError url) cr.1
             end).1 in
  same_config cr.1 c2 /\ session c2 = session cr.1
  /\ visited c2 = visited cr.1 /\ pages c2 = pages cr.1
  /\ forms c2 = forms cr.1 /\ queue c2 = queue cr.1
  /\ failed_to_fetch_lines (stdout c2)
     <= S (failed_to_fetch_lines (stdout cr.1))
  /\ (not_request_exception cr.2 ->
      failed_to_fetch_lines (stdout c2) = failed_to_fetch_lines (stdout cr.1))
  /\ (match cr.2 with
      | Ok _ => (cr.1, Ok tt)
      | Raise RequestException => print (FailedToFetch url) cr.1
      | Raise _ => print (UnexpectedError url) cr.1
      end).2 = Ok tt.
Proof.
  destruct cr as [c1 [[]|e]]; simpl.
  - repeat split; auto.
  - destruct e; simpl; repeat split; auto; by intros [].
Qed.

(** What the [try] block does to the instance. *)
Lemma try_block_effect url c :
  let c1 := (try_block url c).1 in
  same_config c c1 /\ visited c1 = visited c
  /\ session c1 = (session_get (session c) url).1
  /\ match fetched c url with
     | None =>
         pages c1 = pages c /\ forms c1 = forms c /\ queue c1 = queue c
         /\ failed_to_fetch_lines (stdout c1)
            = failed_to_fetch_lines (stdout c)
     | Some r =>
         pages c1 = <[url := text r]> (pages c)
         /\ (forms c1 = forms c
             \/ exists fs, fs <> [] /\ forms c1 = <[url := fs]> (forms c))
         /\ (exists new,
               queue c1 = (queue c ++ new)%list
               /\ Forall (fun l => exists l0, normalize l0 = Ok l) new)
         /\ failed_to_fetch_lines (stdout c1)
            = failed_to_fetch_lines (stdout c)
         /\ not_request_exception (try_block url c).2
     end.
Proof.
  unfold try_block, fetched, mbind, print, get, lift. simpl.
  destruct (session_get (session c) url) as [s [r|e]]; simpl;
    [|by repeat split].
  destruct (raise_for_status r) as [[]|e]; simpl; [|by repeat split].
  destruct (extract_forms (text r) url) as [fs|e] eqn:Hfs; simpl.
  2:{ repeat split; auto.
      - exists []. by rewrite app_nil_r.
      - intros [= ->]. exact (extract_forms_not_request _ _ Hfs). }
  match goal with |- context [match extract_links ?h ?p with _ => _ end] =>
    destruct (extract_links h p) as [links|e] eqn:Hlinks end.
  2:{ destruct fs; simpl; repeat split; auto;
        try (exists []; by rewrite app_nil_r);
        try (intros [= ->]; exact (extract_links_not_request _ _ Hlinks)).
      right. by exists (f :: fs). }
  destruct fs as [|f fs]; simpl;
    match goal with |- context [for_each links enqueue_link ?c1] =>
      destruct (for_each_enqueue links c1)
        as ((?&?&?) & (?&?&?&?&?) & Hv & new & Hq & Hnew) end;
    apply only_value_error_not_request in Hv;
    simpl in *; repeat split; auto; try by exists new.
  right. by exists (f :: fs).
Qed.

(** A pass that fetches its URL marks it visited whatever happens; a page
    is stored, and links are queued, only when the fetch succeeds; the pass
    ends as [time.sleep] does. *)
Lemma crawl_body_fetch c u q :
  queue c = u :: q -> skip_test c (Py.rstrip_slash u) = false ->
  let url := Py.rstrip_slash u in
  let c' := (crawl_body c).1 in
  same_config c c' /\ visited c' = {[url]} ∪ visited c
  /\ session c' = (session_get (session c) url).1
  /\ (crawl_body c).2 = time_sleep (delay c)
  /\ match fetched c url with
     | None =>
         pages c' = pages c /\ forms c' = forms c /\ queue c' = q
         /\ failed_to_fetch_lines (stdout c')
            <= S (failed_to_fetch_lines (stdout c))
     | Some r =>
         pages c' = <[url := text r]> (pages c)
         /\ (forms c' = forms c
             \/ exists fs, fs <> [] /\ forms c' = <[url := fs]> (forms c))
         /\ (exists new,
               queue c' = (q ++ new)%list
               /\ Forall (fun l => exists l0, normalize l0 = Ok l) new)
         /\ failed_to_fetch_lines (stdout c')
            = failed_to_fetch_lines (stdout c)
     end.
Proof.
  intros Hq Hskip. cbv zeta. unfold crawl_body, mbind, queue_pop.
  rewrite Hq. simpl. set (url := Py.rstrip_slash u) in *.
  change (skip_test _ url) with (skip_test c url). rewrite Hskip.
  unfold try_except_finally.
  set (c0 := {| base := base c; max_pages := max_pages c; delay := delay c;
                session := session c; visited := visited c; queue := q;
                pages := pages c; forms := forms c;
                stdout := Processing url :: stdout c |}).
  pose proof (try_block_effect url c0) as Htry.
  pose proof (handlers_effect url (try_block url c0)) as Hh.
  destruct (try_block url c0) as [c1 r1]. simpl in Htry, Hh.
  destruct (match r1 with
            | Ok _ => (c1, Ok tt)
            | Raise RequestException => print (FailedToFetch url) c1
            | Raise _ => print (UnexpectedError url) c1
            end) as [c2 r2].
  simpl in Hh.
  destruct Hh as ((?&?&?) & Hs2 & Hv2 & Hp2 & Hf2 & Hq2 & Hle & Heq & ->).
  destruct Htry as ((?&?&?) & Hv1 & Hs1 & Hcase).
  unfold finally_block, mbind, visited_add, print, lift. simpl.
  assert (fetched c0 url = fetched c url) as Hfetched by done.
  rewrite Hfetched in Hcase.
  assert ((let '(c3, r3) :=
             ({| base := base c2; max_pages := max_pages c2;
                 delay := delay c2; session := session c2;
                 visited := {[url]} ∪ visited c2; queue := queue c2;
                 pages := pages c2; forms := forms c2;
                 stdout := VisitedCount (size ({[url]} ∪ visited c2))
                             :: stdout c2 |}, time_sleep (delay c2)) in
           match r3 with
           | Ok _ => (c3, Ok tt)
           | Raise e => (c3, Raise e)
           end)
          = ({| base := base c2; max_pages := max_pages c2;
                delay := delay c2; session := session c2;
                visited := {[url]} ∪ visited c2; queue := queue c2;
                pages := pages c2; forms := forms c2;
                stdout := VisitedCount (size ({[url]} ∪ visited c2))
                            :: stdout c2 |}, time_sleep (delay c2))) as ->.
  { by destruct (time_sleep (delay c2)) as [[]|]. }
  clear Hfetched. destruct (fetched c url) as [r|].
  - destruct Hcase as (Hp & Hf & (new & Hnew & Hall) & Hl & Hve).
    specialize (Heq Hve). subst c0. simpl in *.
    repeat split; simpl; try congruence.
    + destruct Hf as [Hf | (fs & Hne & Hf)]; [left; congruence|].
      right. exists fs. split; [done | congruence].
    + exists new. split; [congruence | done].
  - destruct Hcase as (Hp & Hf & Hqq & Hl). subst c0. simpl in *.
    repeat split; simpl; congruence.
Qed.

End OnePass.

(** ** What holds each time the loop condition is evaluated *)

Section Invariants.

Context `{Collaborators}.

Implicit Types (c : Crawler) (url u l : string).

Lemma loop_cond_true c :
  loop_cond c = true ->
  exists u q, queue c = u :: q
              /\ (Z.of_nat (size (visited c)) < max_pages c)%Z.
Proof.
  unfold loop_cond. destruct (queue c) as [|u q]; [done|].
  intros Hlt. apply Z.ltb_lt in Hlt. by exists u, q.
Qed.

Lemma loop_cond_false c :
  loop_cond c = false ->
  queue c = [] \/ (max_pages c <= Z.of_nat (size (visited c)))%Z.
Proof.
  unfold loop_cond. destruct (queue c) as [|u q]; [by left|].
  intros Hge. apply Z.ltb_ge in Hge. by right.
Qed.

Lemma skip_test_false c url :
  skip_test c url = false ->
  (url ∉ visited c) /\ is_same_domain (base c) url = true.
Proof.
  unfold skip_test. intros [Hv Hd]%orb_false_elim.
  apply bool_decide_eq_false in Hv. by apply negb_false_iff in Hd.
Qed.

Lemma rstrip_slash_normalized l0 l :
  normalize l0 = Ok l -> Py.rstrip_slash l = l.
Proof.
  intros Hl. apply rstrip_fixed. by eapply normalize_no_trailing_slash.
Qed.

Lemma inv_pass c : inv c -> loop_cond c = true -> inv (crawl_body c).1.
Proof.
  intros (Hpv & Hfp & Hne & Hdom & Hsize & Hcount & Hvis & Hqueue) Hcond.
  destruct (loop_cond_true c Hcond) as (u & q & Hq & Hlt).
  assert (forall u', u' ∈ q -> u' = base c \/ exists l0, normalize l0 = Ok u')
    as Hq'.
  { intros u' Hu'. apply Hqueue. rewrite Hq. by right. }
  destruct (skip_test c (Py.rstrip_slash u)) eqn:Hskip.
  - destruct (crawl_body_skip c u q Hq Hskip)
      as ((Hb & Hm & Hd) & (Hs & Hv & Hp & Hf & Hl) & Hq2 & _).
    unfold inv. rewrite Hb, Hm, Hv, Hp, Hf, Hl, Hq2. done.
  - destruct (skip_test_false _ _ Hskip) as [Hnew Hsame].
    destruct (crawl_body_fetch c u q Hq Hskip)
      as ((Hb & Hm & Hd) & Hv & Hs & _ & Hcase).
    set (url := Py.rstrip_slash u) in *.
    assert (size ({[url]} ∪ visited c) = S (size (visited c))) as Hsz.
    { rewrite size_union by set_solver. by rewrite size_singleton. }
    assert (pages c !! url = None) as Hpnone.
    { apply not_elem_of_dom. set_solver. }
    assert (no_trailing_slash url
            /\ (url = Py.rstrip_slash (base c)
                \/ exists l0, normalize l0 = Ok url)) as Hurl.
    { split; [apply rstrip_ends|].
      destruct (Hqueue u) as [-> | (l0 & Hl0)]; [rewrite Hq; by left|by left|].
      right. exists l0. subst url.
      by rewrite (rstrip_slash_normalized _ _ Hl0). }
    unfold inv. rewrite Hb, Hm, Hv, Hsz.
    destruct (fetched c url) as [r|].
    + destruct Hcase as (Hp & Hf & (new & Hq2 & Hall) & Hl).
      rewrite Hp, Hl, Hq2, dom_insert_L, map_size_insert_None by done.
      split_and!.
      * set_solver.
      * destruct Hf as [-> | (fs & _ & ->)];
          [|rewrite dom_insert_L]; set_solver.
      * destruct Hf as [-> | (fs & Hfs & ->)]; [done|].
        by apply map_Forall_insert_2.
      * intros url' [->%elem_of_singleton | Hin]%elem_of_union; auto.
      * lia.
      * lia.
      * intros url' [->%elem_of_singleton | Hin]%elem_of_union;
          [apply Hurl | by apply Hvis].
      * intros u' [Hu' | Hu']%elem_of_app; [by apply Hq'|].
        right. rewrite Forall_forall in Hall. by apply Hall.
    + destruct Hcase as (Hp & Hf & Hq2 & Hl). rewrite Hp, Hf, Hq2.
      split_and!; try done.
      * set_solver.
      * intros url' [->%elem_of_singleton | Hin]%elem_of_union; auto.
      * lia.
      * lia.
      * intros url' [->%elem_of_singleton | Hin]%elem_of_union;
          [apply Hurl | by apply Hvis].
Qed.

(** A pass changes neither the base URL nor the budget nor the delay. *)
Lemma same_config_pass c : loop_cond c = true -> same_config c (crawl_body c).1.
Proof.
  intros Hcond. destruct (loop_cond_true c Hcond) as (u & q & Hq & _).
  destruct (skip_test c (Py.rstrip_slash u)) eqn:Hskip.
  - by destruct (crawl_body_skip c u q Hq Hskip) as (? & _).
  - by destruct (crawl_body_fetch c u q Hq Hskip) as (? & _).
Qed.

(** To show that a property holds whenever the loop condition is evaluated
    and in the state in which [crawl] ends, returning or raising. *)
Lemma invariant_rule (I : Crawler -> Prop) c0 :
  I c0 -> (forall c, I c -> loop_cond c = true -> I (crawl_body c).1) ->
  (forall c, reachable c0 c -> I c)
  /\ (forall fuel c' r, crawl_loop fuel c0 = Some (c', r) -> I c').
Proof.
  intros H0 Hstep. split.
  - induction 1; auto.
  - intros fuel. revert c0 H0.
    induction fuel as [|fuel IH]; intros c0 H0 c' r; simpl.
    + destruct (loop_cond c0); [done|]. by intros [= <- <-].
    + destruct (loop_cond c0) eqn:Hcond; [|by intros [= <- <-]].
      specialize (Hstep c0 H0 Hcond).
      destruct (crawl_body c0) as [c1 [[]|e]]; simpl in *.
      * by apply IH.
      * by intros [= <- <-].
Qed.

Lemma init_inv base_url m d s c0 :
  __init__ base_url m d s = Ok c0 -> inv c0.
Proof.
  intros [= <-]. unfold inv.
  cbn [base max_pages visited queue pages forms stdout failed_to_fetch_lines].
  rewrite !dom_empty_L, size_empty, map_size_empty.
  split_and!; try done; try lia.
  intros u ->%list_elem_of_singleton. by left.
Qed.

Lemma init_fields base_url m d s c0 :
  __init__ base_url m d s = Ok c0 ->
  base c0 = Py.rstrip_slash base_url /\ max_pages c0 = m /\ delay c0 = d
  /\ visited c0 = ∅ /\ queue c0 = [Py.rstrip_slash base_url]
  /\ pages c0 = ∅ /\ forms c0 = ∅.
Proof. by intros [= <-]. Qed.

Lemma reachable_inv c0 c : inv c0 -> reachable c0 c -> inv c.
Proof. intros H0. by apply (invariant_rule inv c0 H0 inv_pass). Qed.

Lemma reachable_same_config c0 c : reachable c0 c -> same_config c0 c.
Proof.
  induction 1 as [|c Hr (Hb & Hm & Hd) Hcond _]; [done|].
  destruct (same_config_pass c Hcond) as (Hb' & Hm' & Hd').
  unfold same_config. by rewrite Hb', Hm', Hd'.
Qed.

Lemma crawl_loop_inv fuel c0 c' r :
  inv c0 -> crawl_loop fuel c0 = Some (c', r) -> inv c'.
Proof. intros H0. by apply (invariant_rule inv c0 H0 inv_pass). Qed.

Lemma crawl_loop_same_config fuel c0 c' r :
  crawl_loop fuel c0 = Some (c', r) -> same_config c0 c'.
Proof.
  apply (invariant_rule (same_config c0) c0); [done|].
  intros c (Hb & Hm & Hd) Hcond.
  destruct (same_config_pass c Hcond) as (Hb' & Hm' & Hd').
  unfold same_config. by rewrite Hb', Hm', Hd'.
Qed.

(** When the loop ends normally its condition is false. *)
Lemma crawl_loop_exit fuel c0 c' :
  crawl_loop fuel c0 = Some (c', Ok tt) -> loop_cond c' = false.
Proof.
  revert c0. induction fuel as [|fuel IH]; intros c0; simpl.
  - destruct (loop_cond c0) eqn:Hc; [done|]. by intros [= <-].
  - destruct (loop_cond c0) eqn:Hc; [|by intros [= <-]].
    destruct (crawl_body c0) as [c1 [[]|e]]; [apply IH | done].
Qed.

End Invariants.

(** ** The crawl *)

Section Crawl.

Context `{Collaborators}.

Implicit Types (c : Crawler) (url u l : string).

(** C10. From a freshly constructed crawler, each time the loop condition
    is evaluated, every key of [forms] is a key of [pages] and no list stored
    in [forms] is empty; the same holds of the dictionary that [crawl]
    returns. *)
Theorem forms_within_pages base_url m d s c0 :
  __init__ base_url m d s = Ok c0 ->
  (forall c, reachable c0 c ->
     dom (forms c) ⊆ dom (pages c)
     /\ map_Forall (fun _ fs => fs <> []) (forms c))
  /\ (forall fuel c' r,
        crawl fuel c0 = Some (c', Ok r) ->
        dom (result_forms r) ⊆ dom (result_pages r)
        /\ map_Forall (fun _ fs => fs <> []) (result_forms r)).
Proof.
  intros Hinit%init_inv. split.
  - intros c Hc. by destruct (reachable_inv _ _ Hinit Hc) as (_ & ? & ? & _).
  - intros fuel c' r. unfold crawl.
    destruct (crawl_loop fuel c0) as [[c1 [[]|e]]|] eqn:Hloop; try done.
    intros [= <- <-]. simpl.
    by destruct (crawl_loop_inv _ _ _ _ Hinit Hloop) as (_ & ? & ? & _).
Qed.

Lemma failed_count_sum c :
  dom (pages c) ⊆ visited c ->
  size (pages c) + failed_count c = size (visited c).
Proof.
  intros Hsub. unfold failed_count.
  rewrite size_difference by done. rewrite size_dom.
  apply subseteq_size in Hsub. rewrite size_dom in Hsub. lia.
Qed.

Lemma inv_budget c m :
  inv c -> max_pages c = m -> (0 <= m)%Z ->
  (Z.of_nat (size (visited c)) <= m)%Z
  /\ size (pages c) + failed_count c = size (visited c)
  /\ failed_to_fetch_lines (stdout c) <= failed_count c.
Proof.
  intros (Hpv & _ & _ & _ & Hsize & Hcount & _) <- Hm.
  pose proof (failed_count_sum c Hpv). repeat split; lia.
Qed.

(** C2. For a crawler constructed with a budget [max_pages >= 0]:
    - each time the loop condition is evaluated, [visited] holds at most
      [max_pages] URLs; the pages stored and the visited URLs without a
      page ([failed_count]) add up to the size of [visited]; and the lines
      that report a failure to fetch are at most [failed_count];
    - in a state in which the loop condition is false the loop makes no
      further pass, and the condition is false exactly when the queue is
      empty or [visited] holds [max_pages] URLs;
    - in the state in which [crawl] ends the same bounds hold, so the pages
      of the result and the failed fetches are at most [max_pages] together,
      and when [crawl] returns the queue is empty or [visited] holds exactly
      [max_pages] URLs. *)
Theorem visited_within_budget base_url m d s c0 :
  __init__ base_url m d s = Ok c0 -> (0 <= m)%Z ->
  (forall c, reachable c0 c ->
     (Z.of_nat (size (visited c)) <= m)%Z
     /\ size (pages c) + failed_count c = size (visited c)
     /\ failed_to_fetch_lines (stdout c) <= failed_count c
     /\ (loop_cond c = false <->
         queue c = [] \/ Z.of_nat (size (visited c)) = m))
  /\ (forall c fuel, loop_cond c = false -> crawl_loop fuel c = Some (c, Ok tt))
  /\ (forall fuel c' r,
        crawl fuel c0 = Some (c', r) ->
        (Z.of_nat (size (visited c')) <= m)%Z
        /\ (Z.of_nat (size (pages c') + failed_count c') <= m)%Z
        /\ failed_to_fetch_lines (stdout c') <= failed_count c'
        /\ forall res, r = Ok res ->
             result_pages res = pages c'
             /\ (queue c' = [] \/ Z.of_nat (size (visited c')) = m)).
Proof.
  intros Hinit Hm. pose proof (init_inv _ _ _ _ _ Hinit) as Hinv.
  destruct (init_fields _ _ _ _ _ Hinit) as (_ & Hmax & _).
  split; [|split].
  - intros c Hc. pose proof (reachable_inv _ _ Hinv Hc) as Hic.
    destruct (reachable_same_config _ _ Hc) as (_ & Hmc & _).
    rewrite Hmax in Hmc.
    destruct (inv_budget c m Hic Hmc Hm) as (Hle & Hsum & Hlines).
    split_and!; try done. split.
    + intros [Hq | Hge]%loop_cond_false; [by left | right; lia].
    + unfold loop_cond. intros [-> | Heq]; [done|].
      destruct (queue c); [done|]. apply Z.ltb_ge. lia.
  - intros c fuel Hcond. destruct fuel; simpl; by rewrite Hcond.
  - intros fuel c' r. unfold crawl.
    destruct (crawl_loop fuel c0) as [[c1 r1]|] eqn:Hloop; [|done].
    pose proof (crawl_loop_inv _ _ _ _ Hinv Hloop) as Hic.
    destruct (crawl_loop_same_config _ _ _ _ Hloop) as (_ & Hmc & _).
    rewrite Hmax in Hmc.
    destruct (inv_budget c1 m Hic Hmc Hm) as (Hle & Hsum & Hlines).
    destruct r1 as [[]|e]; intros [= <- <-].
    + split_and!; try done; [lia|]. intros res [= <-]. split; [done|].
      apply crawl_loop_exit in Hloop.
      destruct (loop_cond_false _ Hloop) as [Hq | Hge]; [by left | right; lia].
    + split_and!; try done. lia.
Qed.

(** C1, as the code has it. From a freshly constructed crawler, each time
    the loop condition is evaluated: every URL in [visited] and every key of
    [pages] and of [forms] is on the base URL's domain ([is_same_domain]); and
    the next pass either leaves the session alone or asks it for a URL on
    the base URL's domain. Links are queued without regard to their domain;
    the filter is applied when a URL is taken off the queue. *)
Theorem only_same_domain_fetched base_url m d s c0 :
  __init__ base_url m d s = Ok c0 ->
  forall c, reachable c0 c ->
    (forall url,
        url ∈ visited c \/ url ∈ dom (pages c) \/ url ∈ dom (forms c) ->
        is_same_domain (base c0) url = true)
    /\ (forall url, next_fetch c = Some url ->
          is_same_domain (base c0) url = true)
    /\ (loop_cond c = true ->
        session (crawl_body c).1 = session c
        \/ exists url, is_same_domain (base c0) url = true
                       /\ session (crawl_body c).1
                          = (session_get (session c) url).1).
Proof.
  intros Hinit%init_inv c Hc.
  destruct (reachable_inv _ _ Hinit Hc) as (Hpv & Hfp & _ & Hdom & _).
  destruct (reachable_same_config _ _ Hc) as (Hb & _). rewrite Hb in Hdom.
  split; [|split].
  - intros url [Hv | [Hp | Hf]]; apply Hdom; set_solver.
  - unfold next_fetch. intros url. destruct (loop_cond c); [|done].
    destruct (queue c) as [|u q]; [done|].
    destruct (skip_test c (Py.rstrip_slash u)) eqn:Hskip; [done|].
    intros [= <-]. apply skip_test_false in Hskip as [_ Hsame]. congruence.
  - intros Hcond. destruct (loop_cond_true c Hcond) as (u & q & Hq & _).
    destruct (skip_test c (Py.rstrip_slash u)) eqn:Hskip.
    + left. by destruct (crawl_body_skip c u q Hq Hskip) as (_ & (? & _) & _).
    + right. exists (Py.rstrip_slash u).
      destruct (crawl_body_fetch c u q Hq Hskip) as (_ & _ & Hs & _).
      apply skip_test_false in Hskip as [_ Hsame]. split; congruence.
Qed.

Lemma marked_failed_pass url c :
  marked_failed url c -> loop_cond c = true ->
  marked_failed url (crawl_body c).1.
Proof.
  intros (Hv & Hp & Hf) Hcond.
  destruct (loop_cond_true c Hcond) as (u & q & Hq & _).
  destruct (skip_test c (Py.rstrip_slash u)) eqn:Hskip.
  - destruct (crawl_body_skip c u q Hq Hskip)
      as (_ & (_ & Hv' & Hp' & Hf' & _) & _).
    unfold marked_failed. by rewrite Hv', Hp', Hf'.
  - destruct (crawl_body_fetch c u q Hq Hskip) as (_ & Hv' & _ & _ & Hcase).
    apply skip_test_false in Hskip as [Hnew _].
    assert (Py.rstrip_slash u <> url) as Hne by congruence.
    unfold marked_failed. rewrite Hv'.
    destruct (fetched c (Py.rstrip_slash u)) as [r|].
    + destruct Hcase as (-> & Hforms & _).
      split_and!; [set_solver | by rewrite lookup_insert_ne |].
      destruct Hforms as [-> | (fs & _ & ->)]; [done|].
      by rewrite lookup_insert_ne.
    + destruct Hcase as (-> & -> & _). split_and!; [set_solver | done..].
Qed.

Lemma visited_not_fetched url c : url ∈ visited c -> next_fetch c <> Some url.
Proof.
  intros Hv. unfold next_fetch. destruct (loop_cond c); [|done].
  destruct (queue c) as [|u q]; [done|].
  destruct (skip_test c (Py.rstrip_slash u)) eqn:Hskip; [done|].
  intros [= Hu]. apply skip_test_false in Hskip as [Hnew _]. congruence.
Qed.

(** A transport failure: [session.get] raises, or [raise_for_status] does. *)
Lemma transport_failure_not_fetched c url :
  (exists e, (session_get (session c) url).2 = Raise e)
  \/ (exists r, (session_get (session c) url).2 = Ok r
                /\ (400 <= status_code r < 600)%Z) ->
  fetched c url = None.
Proof.
  unfold fetched, raise_for_status. intros [[e ->] | (r & -> & Hlo & Hhi)];
    [done|].
  apply Z.leb_le in Hlo. apply Z.ltb_lt in Hhi. by rewrite Hlo, Hhi.
Qed.

(** A pass that skips its URL ends normally, and a pass that fetches ends
    as [time.sleep] does. *)
Lemma crawl_body_result c :
  loop_cond c = true ->
  (crawl_body c).2 = Ok tt \/ (crawl_body c).2 = time_sleep (delay c).
Proof.
  intros Hcond. destruct (loop_cond_true c Hcond) as (u & q & Hq & _).
  destruct (skip_test c (Py.rstrip_slash u)) eqn:Hskip.
  - left. by destruct (crawl_body_skip c u q Hq Hskip) as (_ & _ & _ & ?).
  - right. by destruct (crawl_body_fetch c u q Hq Hskip) as (_ & _ & _ & ? & _).
Qed.

(** When [time.sleep] returns for the delay, no pass raises. *)
Lemma crawl_body_returns c :
  time_sleep (delay c) = Ok tt -> loop_cond c = true ->
  (crawl_body c).2 = Ok tt.
Proof.
  intros Hd Hcond. destruct (crawl_body_result c Hcond) as [? | Hr]; [done|].
  by rewrite Hr.
Qed.

(** C3. From a freshly constructed crawler, take a pass of the loop whose
    URL is not yet visited and is on the base URL's domain, and in which the
    fetch fails ([session.get] raises, or the status is 400 to 599). After
    the pass the URL is in [visited] and has no entry in [pages] or in
    [forms]; the queue is what remained of it, nothing was added; the pass
    ends as [time.sleep] does for the delay of the crawler, so when
    [time.sleep] returns the pass ends without an exception and the loop goes
    on from the state after the pass; and in every later state of the loop the
    URL is still visited and without page or forms, and the next pass does not
    fetch it. *)
Theorem failed_fetch_marks_visited base_url m d s c0 c u q :
  __init__ base_url m d s = Ok c0 -> reachable c0 c ->
  loop_cond c = true -> queue c = u :: q ->
  let url := Py.rstrip_slash u in
  (url ∉ visited c) -> is_same_domain (base c) url = true ->
  (exists e, (session_get (session c) url).2 = Raise e)
  \/ (exists r, (session_get (session c) url).2 = Ok r
                /\ (400 <= status_code r < 600)%Z) ->
  let c' := (crawl_body c).1 in
  (url ∈ visited c' /\ pages c' !! url = None /\ forms c' !! url = None)
  /\ queue c' = q
  /\ (crawl_body c).2 = time_sleep (delay c)
  /\ (time_sleep (delay c) = Ok tt -> reachable c0 c')
  /\ (forall c'', reachable c' c'' ->
        (url ∈ visited c'' /\ pages c'' !! url = None
         /\ forms c'' !! url = None)
        /\ next_fetch c'' <> Some url).
Proof.
  intros Hinit Hc Hcond Hq url Hnew Hsame Hfail c'.
  pose proof (reachable_inv _ _ (init_inv _ _ _ _ _ Hinit) Hc)
    as (Hpv & Hfp & _).
  assert (skip_test c url = false) as Hskip.
  { unfold skip_test. rewrite Hsame. by rewrite bool_decide_eq_false_2. }
  destruct (crawl_body_fetch c u q Hq Hskip) as (_ & Hv & _ & Hr & Hcase).
  fold url in Hv, Hcase. fold c' in Hv, Hcase.
  rewrite (transport_failure_not_fetched c url Hfail) in Hcase.
  destruct Hcase as (Hp & Hf & Hq' & _).
  assert (marked_failed url c') as Hmarked.
  { unfold marked_failed. rewrite Hv, Hp, Hf. split_and!.
    - set_solver.
    - apply not_elem_of_dom. set_solver.
    - apply not_elem_of_dom. set_solver. }
  split_and!; try done; try apply Hmarked.
  - intros Hd. apply reach_pass; [done..|]. by rewrite Hr.
  - intros c'' Hc''.
    assert (marked_failed url c'') as Hm.
    { by apply (invariant_rule (marked_failed url) c' Hmarked
                  (marked_failed_pass url)). }
    split; [done|]. apply visited_not_fetched, Hm.
Qed.

(** *** Termination *)

Lemma crawl_loop_more fuel k c x :
  crawl_loop fuel c = Some x -> crawl_loop (fuel + k) c = Some x.
Proof.
  revert c. induction fuel as [|fuel IH]; intros c; simpl.
  - destruct (loop_cond c) eqn:Hc; [done|]. intros <-.
    destruct k; simpl; by rewrite Hc.
  - destruct (loop_cond c); [|done].
    destruct (crawl_body c) as [c1 [[]|e]]; [apply IH | done].
Qed.

Lemma pass_decreases c :
  loop_cond c = true ->
  (budget_left (crawl_body c).1 = budget_left c
   /\ List.length (queue (crawl_body c).1) < List.length (queue c))
  \/ budget_left (crawl_body c).1 < budget_left c.
Proof.
  intros Hcond. destruct (loop_cond_true c Hcond) as (u & q & Hq & Hlt).
  destruct (skip_test c (Py.rstrip_slash u)) eqn:Hskip.
  - left.
    destruct (crawl_body_skip c u q Hq Hskip)
      as ((_ & Hm & _) & (_ & Hv & _) & Hq' & _).
    unfold budget_left. rewrite Hm, Hv, Hq', Hq. simpl. lia.
  - right.
    destruct (crawl_body_fetch c u q Hq Hskip) as ((_ & Hm & _) & Hv & _).
    apply skip_test_false in Hskip as [Hnew _].
    unfold budget_left. rewrite Hm, Hv.
    rewrite size_union by set_solver. rewrite size_singleton. lia.
Qed.

(** The loop ends, whatever the session answers and whatever the pages
    hold: each pass either uses up some of the budget or shortens the
    queue. *)
Lemma crawl_loop_terminates c :
  exists fuel c' r, crawl_loop fuel c = Some (c', r).
Proof.
  remember (budget_left c) as n eqn:Hn. revert c Hn.
  induction n as [n IHn] using lt_wf_ind. intros c Hn.
  remember (List.length (queue c)) as k eqn:Hk. revert c Hn Hk.
  induction k as [k IHk] using lt_wf_ind. intros c Hn Hk.
  destruct (loop_cond c) eqn:Hcond.
  2:{ exists 0, c, (Ok tt). simpl. by rewrite Hcond. }
  assert (exists fuel c' r, crawl_loop fuel (crawl_body c).1 = Some (c', r))
    as (fuel & c' & r & Hrun).
  { destruct (pass_decreases c Hcond) as [[Hb Hl] | Hb].
    - eapply (IHk (List.length (queue (crawl_body c).1))); [lia| |done].
      by rewrite Hb.
    - eapply (IHn (budget_left (crawl_body c).1)); [lia | done]. }
  destruct (crawl_body c) as [c1 [[]|e]] eqn:Hbody; simpl in Hrun.
  - exists (S fuel), c', r. simpl. by rewrite Hcond, Hbody.
  - exists 1, c1, (Raise e). simpl. by rewrite Hcond, Hbody.
Qed.

(** An exception that ends the loop is the one that [time.sleep] raises
    for the delay of the crawler. *)
Lemma crawl_loop_raises fuel c c' e :
  crawl_loop fuel c = Some (c', Raise e) -> time_sleep (delay c) = Raise e.
Proof.
  revert c. induction fuel as [|fuel IH]; intros c; simpl.
  - by destruct (loop_cond c).
  - destruct (loop_cond c) eqn:Hcond; [|done].
    pose proof (crawl_body_result c Hcond) as Hret.
    destruct (same_config_pass c Hcond) as (_ & _ & Hdelay).
    destruct (crawl_body c) as [c1 [[]|e1]]; simpl in *.
    + intros Hrun. rewrite <- Hdelay. by apply IH.
    + intros [= <- <-]. by destruct Hret as [? | <-].
Qed.

Lemma crawl_loop_returns fuel c c' r :
  time_sleep (delay c) = Ok tt -> crawl_loop fuel c = Some (c', r) ->
  r = Ok tt.
Proof.
  intros Hd Hrun. destruct r as [[]|e]; [done|].
  apply crawl_loop_raises in Hrun. congruence.
Qed.

(** [crawl] ends, whatever the session answers and whatever the pages
    hold; it returns the dictionary of the [pages] and [forms] of the
    instance unless [time.sleep] raises for the delay of the crawler, and
    then that exception is the one that leaves [crawl]. *)
Lemma crawl_ends c :
  exists fuel c' r,
    (forall fuel', fuel <= fuel' -> crawl fuel' c = Some (c', r))
    /\ (time_sleep (delay c) = Ok tt ->
        r = Ok {| result_pages := pages c'; result_forms := forms c' |})
    /\ (forall e, r = Raise e -> time_sleep (delay c) = Raise e).
Proof.
  destruct (crawl_loop_terminates c) as (fuel & c' & r & Hrun).
  exists fuel, c'.
  exists (match r with
          | Ok _ => Ok {| result_pages := pages c'; result_forms := forms c' |}
          | Raise e => Raise e
          end).
  split_and!.
  - intros fuel' Hle. unfold crawl.
    replace fuel' with (fuel + (fuel' - fuel)) by lia.
    rewrite (crawl_loop_more _ _ _ _ Hrun). by destruct r.
  - intros Hd. by rewrite (crawl_loop_returns _ _ _ _ Hd Hrun).
  - intros e He. destruct r as [[]|e']; [done|]. injection He as ->.
    by apply crawl_loop_raises in Hrun.
Qed.

(** C6. Whatever the session answers to each request and whatever links
    and forms the pages hold, [crawl] terminates: from any state of the
    crawler there is a number of passes after which the loop has ended. No
    exception of a fetch or of the processing of a page ends the loop: a pass
    ends normally or as [time.sleep] does for the delay of the crawler; when
    [time.sleep] returns for that delay, [crawl] returns the dictionary of the
    [pages] and [forms] of the instance; and an exception that leaves [crawl]
    is the one that [time.sleep] raises for that delay. *)
Theorem crawl_terminates c :
  (loop_cond c = true ->
   (crawl_body c).2 = Ok tt \/ (crawl_body c).2 = time_sleep (delay c))
  /\ exists fuel c' r,
       (forall fuel', fuel <= fuel' -> crawl fuel' c = Some (c', r))
       /\ (time_sleep (delay c) = Ok tt ->
           r = Ok {| result_pages := pages c'; result_forms := forms c' |})
       /\ (forall e, r = Raise e -> time_sleep (delay c) = Raise e).
Proof.
  split; [apply crawl_body_result|].
  destruct (crawl_loop_terminates c) as (fuel & c' & r & Hrun).
  assert (forall fuel', fuel <= fuel' -> crawl_loop fuel' c = Some (c', r))
    as Hmore.
  { intros fuel' Hle. replace fuel' with (fuel + (fuel' - fuel)) by lia.
    by apply crawl_loop_more. }
  destruct r as [[]|e].
  - exists fuel, c'. eexists. split_and!.
    + intros fuel' Hle. unfold crawl. by rewrite (Hmore fuel' Hle).
    + done.
    + done.
  - exists fuel, c', (Raise e). split_and!.
    + intros fuel' Hle. unfold crawl. by rewrite (Hmore fuel' Hle).
    + intros Hd. apply crawl_loop_raises in Hrun. congruence.
    + intros e' [= <-]. by apply crawl_loop_raises in Hrun.
Qed.

(** X11 (lines 55, 69, 93). From a freshly constructed crawler no
    visited URL, hence no key of [pages], ends in a slash, and every one
    other than the seed is free of fragments. *)
Lemma visited_normalized_but_seed base_url m d s c0 :
  __init__ base_url m d s = Ok c0 ->
  forall c, reachable c0 c ->
    (forall url, url ∈ visited c ->
       no_trailing_slash url
       /\ (url = base c0 \/ Py.contains "#" url = false))
    /\ dom (pages c) ⊆ visited c.
Proof.
  intros Hinit c Hc.
  pose proof (reachable_inv _ _ (init_inv _ _ _ _ _ Hinit) Hc)
    as (Hpv & _ & _ & _ & _ & _ & Hvis & _).
  destruct (reachable_same_config _ _ Hc) as (Hb & _).
  destruct (init_fields _ _ _ _ _ Hinit) as (Hb0 & _).
  split; [|done]. intros url Hurl.
  destruct (Hvis url Hurl) as [Hslash [Hseed | (l0 & Hl0)]].
  - split; [done|]. left. rewrite Hseed, Hb, Hb0.
    apply rstrip_fixed, rstrip_ends.
  - split; [done|]. right. by eapply normalize_hash_free.
Qed.

(** C4, as the code has it. The constructor never fails: it neither
    parses nor checks the base URL. With a base URL on which [urlparse]
    raises, [crawl] takes the URL off the queue, fetches nothing and returns
    empty [pages] and [forms]. Whatever the configuration and whatever the
    session does, [crawl] ends; what it raises, if anything, is what
    [time.sleep] raises for the delay of the crawler, and when [time.sleep]
    returns for that delay, [crawl] returns its result. *)
Theorem constructor_accepts_any_base_url base_url m d s :
  (exists c0, __init__ base_url m d s = Ok c0)
  /\ (forall c0 e,
        __init__ base_url m d s = Ok c0 ->
        urlparse (Py.rstrip_slash base_url) = Raise e ->
        forall fuel, 1 <= fuel ->
          exists c',
            crawl fuel c0
            = Some (c', Ok {| result_pages := ∅; result_forms := ∅ |})
            /\ session c' = session c0)
  /\ (forall c : Crawler,
        exists fuel c' r,
          (forall fuel', fuel <= fuel' -> crawl fuel' c = Some (c', r))
          /\ (time_sleep (delay c) = Ok tt ->
              r = Ok {| result_pages := pages c';
                        result_forms := forms c' |})
          /\ (forall e, r = Raise e -> time_sleep (delay c) = Raise e)).
Proof.
  split; [by eexists | split].
  - intros c0 e Hinit Hparse fuel Hfuel.
    destruct (init_fields _ _ _ _ _ Hinit)
      as (Hb & _ & _ & Hv & Hq & Hp & Hf).
    destruct (loop_cond c0) eqn:Hcond.
    + assert (skip_test c0 (Py.rstrip_slash (Py.rstrip_slash base_url)) = true)
        as Hskip.
      { unfold skip_test. rewrite Hb.
        rewrite (is_same_domain_unparsable _ _ e) by auto.
        apply orb_true_r. }
      destruct (crawl_body_skip c0 _ _ Hq Hskip)
        as (_ & (Hs' & _ & Hp' & Hf' & _) & Hq' & Hr).
      exists (crawl_body c0).1. split; [|done].
      destruct fuel as [|fuel]; [lia|]. unfold crawl. simpl. rewrite Hcond.
      destruct (crawl_body c0) as [c1 r1]. simpl in *. subst r1.
      assert (loop_cond c1 = false) as Hc1 by (unfold loop_cond; by rewrite Hq').
      assert (crawl_loop fuel c1 = Some (c1, Ok tt)) as ->
        by (destruct fuel; simpl; by rewrite Hc1).
      by rewrite Hp', Hf', Hp, Hf.
    + exists c0. split; [|done]. unfold crawl.
      assert (crawl_loop fuel c0 = Some (c0, Ok tt)) as ->
        by (destruct fuel; simpl; by rewrite Hcond).
      by rewrite Hp, Hf.
  - apply crawl_ends.
Qed.

End Crawl.

(** * Further properties of the code *)

(** ** [is_same_domain] and [extract_links] *)

Section Extraction.

Context `{Collaborators}.

(** X1. [is_same_domain] (lines 15 to 20) is symmetric; a URL is on its own
    domain exactly when [urlparse] accepts it; and the relation is
    transitive. *)
Theorem is_same_domain_equivalence :
  (forall a b, is_same_domain a b = is_same_domain b a)
  /\ (forall a, is_same_domain a a = true <-> exists r, urlparse a = Ok r)
  /\ (forall a b c,
        is_same_domain a b = true -> is_same_domain b c = true ->
        is_same_domain a c = true).
Proof.
  split_and!.
  - intros a b. unfold is_same_domain.
    destruct (urlparse a) as [ra|[]], (urlparse b) as [rb|[]]; simpl;
      try done.
    apply eq_true_iff_eq. rewrite !String.eqb_eq. naive_solver.
  - intros a. unfold is_same_domain. destruct (urlparse a) as [r|e]; simpl.
    + rewrite String.eqb_refl. naive_solver.
    + split; [by destruct e | by intros [r ?]].
  - intros a b c. unfold is_same_domain.
    destruct (urlparse a) as [ra|[]], (urlparse b) as [rb|[]],
      (urlparse c) as [rc|[]]; simpl; try done.
    rewrite !String.eqb_eq. congruence.
Qed.

Lemma mapM_Raise {A B} (f : A -> result B) xs e :
  mapM f xs = Raise e -> exists x, x ∈ xs /\ f x = Raise e.
Proof.
  induction xs as [|x xs IH]; simpl; [done|].
  destruct (f x) as [y|e'] eqn:Hx; simpl.
  - destruct (mapM f xs) as [ys|e'']; simpl; [done|]. intros [= ->].
    destruct (IH eq_refl) as (x' & Hin & Hx'). exists x'. split; [|done].
    by right.
  - intros [= ->]. exists x. split; [by left | done].
Qed.

Lemma mapM_Ok_elem {A B} (f : A -> result B) xs ys :
  mapM f xs = Ok ys -> forall x, x ∈ xs -> exists y, f x = Ok y.
Proof.
  intros Hmap%mapM_Forall2. induction Hmap as [|x y xs ys Hxy _ IH].
  - by intros x ?%elem_of_nil.
  - intros x' [-> | Hin]%elem_of_cons; [by exists y | by apply IH].
Qed.

Lemma Forall2_graph_elem {A B} (f : A -> result B) xs ys y :
  Forall2 (fun x y => f x = Ok y) xs ys ->
  y ∈ ys <-> exists x, x ∈ xs /\ f x = Ok y.
Proof.
  induction 1 as [|x y' xs ys Hxy Hall IH].
  - split; [by intros ?%elem_of_nil | by intros (x & ?%elem_of_nil & _)].
  - rewrite elem_of_cons, IH. split.
    + intros [-> | (x' & Hin & Hx')].
      * exists x. split; [by left | done].
      * exists x'. split; [by right | done].
    + intros (x' & [-> | Hin]%elem_of_cons & Hx').
      * left. congruence.
      * right. by exists x'.
Qed.

(** X2. [extract_links] (lines 22 to 30). When it returns, the parser
    returned the document, the list has no duplicates and holds exactly the
    URLs to which the [href] of some [a] element of the document resolves
    against the page URL; an [a] element without [href] contributes nothing.
    It raises exactly when the parser raises, and then the same exception, or
    when some [href] of the document cannot be resolved, and then the
    [ValueError] of [urljoin]. A document without such an element gives the
    empty list. *)
Theorem extract_links_resolves_hrefs (html page_url : string) :
  (forall links,
      extract_links html page_url = Ok links ->
      exists soup,
        BeautifulSoup html = Ok soup
        /\ NoDup links
        /\ forall l,
             l ∈ links <->
             exists a_tag href,
               a_tag ∈ find_all ["a"] soup
               /\ tag_get a_tag "href" = Some href
               /\ urljoin page_url href = Ok l)
  /\ (forall e,
        extract_links html page_url = Raise e <->
        BeautifulSoup html = Raise e
        \/ exists soup,
             BeautifulSoup html = Ok soup
             /\ e = ValueError
             /\ exists a_tag href,
                  a_tag ∈ find_all ["a"] soup
                  /\ tag_get a_tag "href" = Some href
                  /\ urljoin page_url href = Raise e)
  /\ (forall soup,
        BeautifulSoup html = Ok soup ->
        (forall a_tag, a_tag ∈ find_all ["a"] soup ->
           tag_get a_tag "href" = None) ->
        extract_links html page_url = Ok []).
Proof.
  unfold extract_links.
  destruct (BeautifulSoup html) as [soup|e0]; simpl.
  2:{ split_and!; [done | | done]. intros e. split.
      - intros [= ->]. by left.
      - by intros [[= ->] | (soup & ? & _)]. }
  set (anchors := List.filter has_href (find_all ["a"] soup)).
  set (resolve := fun a_tag : node =>
                    urljoin page_url (tag_get_default a_tag "href" "")).
  assert (forall a_tag,
             a_tag ∈ anchors <->
             a_tag ∈ find_all ["a"] soup
             /\ exists href, tag_get a_tag "href" = Some href) as Hanchor.
  { intros a_tag. unfold anchors.
    rewrite !list_elem_of_In, filter_In, <- !list_elem_of_In.
    unfold has_href. destruct (tag_get a_tag "href"); naive_solver. }
  assert (forall a_tag href,
             tag_get a_tag "href" = Some href ->
             resolve a_tag = urljoin page_url href) as Hresolve.
  { intros a_tag href Hhref. unfold resolve, tag_get_default.
    by rewrite Hhref. }
  split_and!.
  - intros links. destruct (mapM resolve anchors) as [ls|e] eqn:Hmap; [|done].
    simpl. intros [= <-]. pose proof (list_of_set_perm ls) as Hperm.
    exists soup. split; [done|].
    split; [rewrite Hperm; apply NoDup_remove_dups|].
    intros l. rewrite Hperm, elem_of_remove_dups.
    rewrite (Forall2_graph_elem _ _ _ _ (mapM_Forall2 _ _ _ Hmap)).
    split.
    + intros (a_tag & [Hin [href Hhref]]%Hanchor & Hl).
      exists a_tag, href. by rewrite <- (Hresolve _ _ Hhref).
    + intros (a_tag & href & Hin & Hhref & Hl). exists a_tag.
      split; [apply Hanchor; eauto | by rewrite (Hresolve _ _ Hhref)].
  - intros e. destruct (mapM resolve anchors) as [ls|e'] eqn:Hmap; simpl.
    + split; [done|].
      intros [? | (soup' & [= <-] & _ & a_tag & href & Hin & Hhref & Hraise)];
        [done|].
      assert (a_tag ∈ anchors) as Ha by (apply Hanchor; eauto).
      destruct (mapM_Ok_elem _ _ _ Hmap a_tag Ha) as [l Hl].
      rewrite (Hresolve _ _ Hhref) in Hl. congruence.
    + split.
      * intros [= ->]. right. exists soup. split; [done|].
        destruct (mapM_Raise _ _ _ Hmap)
          as (a_tag & [Hin [href Hhref]]%Hanchor & Hraise).
        rewrite (Hresolve _ _ Hhref) in Hraise.
        split; [eapply urljoin_only_value_error, Hraise|].
        exists a_tag, href. by split_and!.
      * intros [? | (soup' & _ & -> & _)]; [done|].
        destruct (mapM_Raise _ _ _ Hmap) as (a_tag & _ & Hraise).
        by rewrite (urljoin_only_value_error _ _ _ Hraise).
  - intros soup' [= <-] Hnone.
    assert (anchors = []) as ->.
    { destruct anchors as [|a_tag rest]; [done|].
      destruct (Hanchor a_tag) as [Hin _].
      destruct Hin as [Hin [href Hhref]]; [by left|].
      by rewrite (Hnone a_tag Hin) in Hhref. }
    simpl. f_equal. apply Permutation_nil_r. by rewrite (list_of_set_perm []).
Qed.

End Extraction.

(** ** The passes of the loop, statement by statement *)

Section Passes.

Context `{Collaborators}.

Implicit Types (c : Crawler) (url u l : string) (q : list string).

(** The body of the loop once its URL is off the queue. *)
Lemma crawl_body_unfold c u q :
  queue c = u :: q ->
  crawl_body c
  = let url := Py.rstrip_slash u in
    if skip_test c url then print (Skipping url) (entering c q url)
    else try_except_finally (try_block url)
                            (print (FailedToFetch url))
                            (print (UnexpectedError url))
                            (finally_block url) (entering c q url).
Proof.
  intros Hq. unfold crawl_body, mbind, queue_pop. rewrite Hq. reflexivity.
Qed.

(** The [try] block, stage by stage. *)
Lemma try_block_unfold url c :
  try_block url c
  = let c1 := (print (Fetching url) c).1 in
    match (get url c1).2 with
    | Raise e => ((get url c1).1, Raise e)
    | Ok r =>
        match raise_for_status r with
        | Raise e => ((get url c1).1, Raise e)
        | Ok _ =>
            let c3 := (print (Fetched url (status_code r))
                             (pages_set url (text r) (get url c1).1).1).1 in
            match extract_forms (text r) url with
            | Raise e => (c3, Raise e)
            | Ok fs =>
                let c4 := match fs with
                          | [] => c3
                          | _ => (print (FoundForms (List.length fs))
                                        (forms_set url fs c3).1).1
                          end in
                match extract_links (text r) url with
                | Raise e => (c4, Raise e)
                | Ok links =>
                    for_each links enqueue_link
                             (print (FoundLinks (List.length links)) c4).1
                end
            end
        end
    end.
Proof.
  unfold try_block, mbind, lift, get. simpl.
  destruct (session_get (session c) url) as [s [r|e]]; simpl; [|done].
  destruct (raise_for_status r) as [[]|e]; simpl; [|done].
  destruct (extract_forms (text r) url) as [fs|e]; simpl; [|done].
  destruct fs; simpl; by destruct (extract_links (text r) url).
Qed.

Lemma fetched_Some c url r :
  fetched c url = Some r ->
  (session_get (session c) url).2 = Ok r /\ raise_for_status r = Ok tt.
Proof.
  unfold fetched. destruct ((session_get (session c) url).2) as [r'|]; [|done].
  destruct (raise_for_status r') as [[]|] eqn:Hstatus; [|done].
  by intros [= <-].
Qed.

(** The loop over the links keeps the queue free of duplicates, and what
    it appends is the normal form of a link of the list, not empty, not
    visited. *)
Lemma for_each_enqueue_fresh links c :
  NoDup (queue c) ->
  let c' := (for_each links enqueue_link c).1 in
  NoDup (queue c')
  /\ forall l, l ∈ queue c' ->
       l ∈ queue c
       \/ (l <> "" /\ (l ∉ visited c)
           /\ exists l0, l0 ∈ links /\ normalize l0 = Ok l).
Proof.
  revert c. induction links as [|l0 links IH]; intros c Hnd.
  { simpl. split; [done | by left]. }
  rewrite for_each_enqueue_cons.
  destruct (normalize l0) as [l|e] eqn:Hl; [|simpl; split; [done | by left]].
  destruct (Py.truthy l && negb (bool_decide (l ∈ visited c))
            && negb (bool_decide (l ∈ queue c))) eqn:Htest.
  - apply andb_prop in Htest as [[Hne Hv]%andb_prop Hq].
    apply negb_true_iff, bool_decide_eq_false in Hv, Hq.
    destruct (IH (print (Added l) (queue_append l c).1).1) as [Hnd' Hin'].
    { simpl. apply NoDup_app. split_and!; [done| |apply NoDup_singleton].
      by intros x Hx ->%list_elem_of_singleton. }
    split; [done|]. intros l1 Hl1.
    destruct (Hin' l1 Hl1) as [Hold | (Hne1 & Hv1 & l2 & Hl2 & Hn2)].
    + simpl in Hold. apply elem_of_app in Hold as [Hold | Hnew]; [by left|].
      apply list_elem_of_singleton in Hnew as ->. right.
      split_and!; [by destruct l | done |]. exists l0. split; [by left|done].
    + right. split_and!; [done..|]. exists l2. split; [by right | done].
  - destruct (IH c Hnd) as [Hnd' Hin']. split; [done|]. intros l1 Hl1.
    destruct (Hin' l1 Hl1) as [Hold | (Hne1 & Hv1 & l2 & Hl2 & Hn2)];
      [by left|].
    right. split_and!; [done..|]. exists l2. split; [by right | done].
Qed.

(** When every link can be normalized the loop runs to its end, and
    afterwards each normal form is empty, visited or in the queue. *)
Lemma for_each_enqueue_complete links ls c :
  Forall2 (fun l l' => normalize l = Ok l') links ls ->
  (for_each links enqueue_link c).2 = Ok tt
  /\ forall l, l ∈ ls ->
       l = "" \/ l ∈ visited c \/ l ∈ queue (for_each links enqueue_link c).1.
Proof.
  intros Hall. revert c.
  induction Hall as [|l0 l links ls Hl Hall IH]; intros c.
  { simpl. split; [done | by intros l ?%elem_of_nil]. }
  rewrite for_each_enqueue_cons, Hl.
  destruct (Py.truthy l && negb (bool_decide (l ∈ visited c))
            && negb (bool_decide (l ∈ queue c))) eqn:Htest.
  - destruct (IH (print (Added l) (queue_append l c).1).1) as [Hret Hin].
    split; [done|]. intros l1 [-> | Hl1]%elem_of_cons; [|by apply Hin].
    right; right.
    destruct (for_each_enqueue links (print (Added l) (queue_append l c).1).1)
      as (_ & _ & _ & new & -> & _).
    simpl. rewrite !elem_of_app, list_elem_of_singleton. auto.
  - destruct (IH c) as [Hret Hin]. split; [done|].
    intros l1 [-> | Hl1]%elem_of_cons; [|by apply Hin].
    apply andb_false_iff in Htest as [[Hne | Hv]%andb_false_iff | Hq].
    + left. by destruct l.
    + right; left. by apply negb_false_iff, bool_decide_eq_true in Hv.
    + right; right. apply negb_false_iff, bool_decide_eq_true in Hq.
      destruct (for_each_enqueue links c) as (_ & _ & _ & new & -> & _).
      apply elem_of_app. by left.
Qed.

(** The loop over the links prints no line that a URL is fetched. *)
Lemma for_each_enqueue_requested links c :
  requested (stdout (for_each links enqueue_link c).1) = requested (stdout c).
Proof.
  revert c. induction links as [|l0 links IH]; intros c; [done|].
  rewrite for_each_enqueue_cons. destruct (normalize l0) as [l|e]; [|done].
  destruct (_ && _); [|apply IH]. by rewrite IH.
Qed.

(** The [try] block prints once that it fetches its URL. *)
Lemma try_block_requested url c :
  requested (stdout (try_block url c).1) = url :: requested (stdout c).
Proof.
  rewrite try_block_unfold. cbv zeta.
  destruct ((get url (print (Fetching url) c).1).2) as [r|e] eqn:Hget;
    [|by unfold get; simpl; destruct (session_get (session c) url)].
  assert (requested (stdout (get url (print (Fetching url) c).1).1)
          = url :: requested (stdout c)) as Hstart.
  { unfold get. simpl. by destruct (session_get (session c) url). }
  destruct (raise_for_status r) as [[]|e]; [|done].
  destruct (extract_forms (text r) url) as [fs|e]; [|done].
  destruct (extract_links (text r) url) as [links|e];
    [rewrite for_each_enqueue_requested|]; by destruct fs.
Qed.

(** The handlers and the [finally] block only mark the URL visited and
    print. *)
Lemma after_try_block url c :
  let c1 := (try_block url c).1 in
  let c' := (try_except_finally (try_block url)
                                (print (FailedToFetch url))
                                (print (UnexpectedError url))
                                (finally_block url) c).1 in
  visited c' = {[url]} ∪ visited c1 /\ pages c' = pages c1
  /\ forms c' = forms c1 /\ queue c' = queue c1
  /\ requested (stdout c') = requested (stdout c1).
Proof.
  cbv zeta. unfold try_except_finally.
  destruct (try_block url c) as [c1 [[]|[]]]; simpl;
    unfold finally_block, mbind, visited_add, lift; simpl;
    by destruct (time_sleep _) as [[]|].
Qed.

(** What a pass that fetches leaves behind, in terms of its [try] block. *)
Lemma crawl_body_fetch_fields c u q :
  queue c = u :: q -> skip_test c (Py.rstrip_slash u) = false ->
  let url := Py.rstrip_slash u in
  let c1 := (try_block url (entering c q url)).1 in
  let c' := (crawl_body c).1 in
  visited c' = {[url]} ∪ visited c /\ pages c' = pages c1
  /\ forms c' = forms c1 /\ queue c' = queue c1
  /\ requested (stdout c') = url :: requested (stdout c)
  /\ (crawl_body c).2 = time_sleep (delay c).
Proof.
  intros Hq Hskip. cbv zeta.
  destruct (crawl_body_fetch c u q Hq Hskip) as (_ & Hv & _ & Hr & _).
  split; [done|]. split_and!; [..|done].
  all: rewrite (crawl_body_unfold c u q Hq); cbv zeta; rewrite Hskip.
  all: destruct (after_try_block (Py.rstrip_slash u)
                   (entering c q (Py.rstrip_slash u)))
         as (_ & Hp & Hf & Hq' & Hreq); try done.
  by rewrite Hreq, try_block_requested.
Qed.

Lemma crawl_body_skip_requested c u q :
  queue c = u :: q -> skip_test c (Py.rstrip_slash u) = true ->
  requested (stdout (crawl_body c).1) = requested (stdout c).
Proof.
  intros Hq Hskip. rewrite (crawl_body_unfold c u q Hq). cbv zeta.
  by rewrite Hskip.
Qed.

End Passes.

(** ** More on the crawl *)

Section MoreCrawl.

Context `{Collaborators}.

Implicit Types (c : Crawler) (url u l : string) (q : list string).

(** The [try] block when [extract_forms] raises: the page is stored,
    nothing else is. *)
Lemma try_block_forms_raise url c r e :
  fetched c url = Some r -> extract_forms (text r) url = Raise e ->
  let c1 := (try_block url c).1 in
  pages c1 = <[url := text r]> (pages c) /\ forms c1 = forms c
  /\ queue c1 = queue c.
Proof.
  intros [Hget Hstatus]%fetched_Some Hforms. cbv zeta.
  rewrite try_block_unfold. cbv zeta. unfold get. simpl.
  destruct (session_get (session c) url) as [s r0]. simpl in *. subst r0.
  by rewrite Hstatus, Hforms.
Qed.

(** The [try] block when [extract_links] raises: the page and its forms
    are stored, nothing is queued. *)
Lemma try_block_links_raise url c r fs e :
  fetched c url = Some r -> extract_forms (text r) url = Ok fs ->
  extract_links (text r) url = Raise e ->
  let c1 := (try_block url c).1 in
  pages c1 = <[url := text r]> (pages c) /\ forms c1 = forms_after c url fs
  /\ queue c1 = queue c.
Proof.
  intros [Hget Hstatus]%fetched_Some Hforms Hlinks. cbv zeta.
  rewrite try_block_unfold. cbv zeta. unfold get. simpl.
  destruct (session_get (session c) url) as [s r0]. simpl in *. subst r0.
  rewrite Hstatus, Hforms, Hlinks. by destruct fs.
Qed.

(** The [try] block when both extractions return: the loop over the links
    starts with the page and the forms stored and the queue as it was. *)
Lemma try_block_links url c r fs links :
  fetched c url = Some r -> extract_forms (text r) url = Ok fs ->
  extract_links (text r) url = Ok links ->
  exists c4,
    try_block url c = for_each links enqueue_link c4
    /\ visited c4 = visited c /\ queue c4 = queue c
    /\ pages c4 = <[url := text r]> (pages c)
    /\ forms c4 = forms_after c url fs.
Proof.
  intros [Hget Hstatus]%fetched_Some Hforms Hlinks.
  rewrite try_block_unfold. cbv zeta. unfold get. simpl.
  destruct (session_get (session c) url) as [s r0]. simpl in *. subst r0.
  rewrite Hstatus, Hforms, Hlinks. eexists. split; [reflexivity|].
  by destruct fs.
Qed.

(** The [try] block keeps the queue free of duplicates; what it adds is a
    normalized link, not empty and not visited before. *)
Lemma try_block_queue url c :
  NoDup (queue c) ->
  let c1 := (try_block url c).1 in
  NoDup (queue c1)
  /\ forall l, l ∈ queue c1 ->
       l ∈ queue c
       \/ (l <> "" /\ (l ∉ visited c) /\ exists l0, normalize l0 = Ok l).
Proof.
  intros Hnd. cbv zeta.
  destruct (fetched c url) as [r|] eqn:Hf.
  2:{ destruct (try_block_effect url c) as (_ & _ & _ & Hcase).
      rewrite Hf in Hcase. destruct Hcase as (_ & _ & -> & _).
      split; [done | by left]. }
  destruct (extract_forms (text r) url) as [fs|e] eqn:Hforms.
  2:{ destruct (try_block_forms_raise url c r e Hf Hforms) as (_ & _ & ->).
      split; [done | by left]. }
  destruct (extract_links (text r) url) as [links|e] eqn:Hlinks.
  2:{ destruct (try_block_links_raise url c r fs e Hf Hforms Hlinks)
        as (_ & _ & ->).
      split; [done | by left]. }
  destruct (try_block_links url c r fs links Hf Hforms Hlinks)
    as (c4 & -> & Hv & Hq & _).
  destruct (for_each_enqueue_fresh links c4) as [Hnd' Hin];
    [by rewrite Hq|].
  split; [done|]. intros l Hl. rewrite <- Hq, <- Hv.
  destruct (Hin l Hl) as [? | (? & ? & l0 & _ & ?)]; [by left|].
  right. split_and!; [done..|]. by exists l0.
Qed.

(** X3 (lines 82 to 96, 101 to 107). An exception while a fetched page is
    processed is caught and costs only what was not yet done. When
    [extract_forms] raises, the page is already stored under its URL,
    [forms] and the queue get nothing; when [extract_links] raises, the page
    and its forms (if any) are stored and nothing is queued. In both cases
    the URL is marked visited and the pass ends as [time.sleep] does. *)
Theorem extraction_errors_are_isolated c u q r :
  queue c = u :: q -> skip_test c (Py.rstrip_slash u) = false ->
  fetched c (Py.rstrip_slash u) = Some r ->
  let url := Py.rstrip_slash u in
  let c' := (crawl_body c).1 in
  (url ∈ visited c' /\ (crawl_body c).2 = time_sleep (delay c))
  /\ (forall e,
        extract_forms (text r) url = Raise e ->
        pages c' = <[url := text r]> (pages c) /\ forms c' = forms c
        /\ queue c' = q)
  /\ (forall fs e,
        extract_forms (text r) url = Ok fs ->
        extract_links (text r) url = Raise e ->
        pages c' = <[url := text r]> (pages c)
        /\ forms c' = forms_after c url fs /\ queue c' = q).
Proof.
  intros Hq Hskip Hf. cbv zeta.
  destruct (crawl_body_fetch_fields c u q Hq Hskip)
    as (Hv & Hp & Hfo & Hq' & _ & Hr).
  rewrite Hv, Hp, Hfo, Hq'. split_and!; [set_solver | done | |].
  - intros e He.
    by destruct (try_block_forms_raise (Py.rstrip_slash u)
                   (entering c q (Py.rstrip_slash u)) r e Hf He)
      as (-> & -> & ->).
  - intros fs e Hfs He.
    by destruct (try_block_links_raise (Py.rstrip_slash u)
                   (entering c q (Py.rstrip_slash u)) r fs e Hf Hfs He)
      as (-> & -> & ->).
Qed.

(** X4 (lines 90 to 96). In a pass that fetches a page and extracts its
    forms and links, the links are appended behind what was left of the
    queue, which stays free of duplicates. Every URL appended is the normal
    form of a link of the page, is not empty, was not in the queue and was
    not visited before the pass. If every link can be normalized, then each
    normal form is empty, was visited before the pass, or is in the queue
    after it. The URL of the pass itself is not yet marked visited while its
    links are queued: a page that links to itself is queued again. *)
Theorem links_are_queued_once c u q r fs links :
  queue c = u :: q -> skip_test c (Py.rstrip_slash u) = false ->
  fetched c (Py.rstrip_slash u) = Some r ->
  extract_forms (text r) (Py.rstrip_slash u) = Ok fs ->
  extract_links (text r) (Py.rstrip_slash u) = Ok links ->
  NoDup q ->
  let url := Py.rstrip_slash u in
  let c' := (crawl_body c).1 in
  exists new,
    queue c' = (q ++ new)%list /\ NoDup (q ++ new)%list
    /\ (forall l, l ∈ new ->
          l <> "" /\ (l ∉ visited c) /\ (l ∉ q)
          /\ exists l0, l0 ∈ links /\ normalize l0 = Ok l)
    /\ (forall ls,
          Forall2 (fun l0 l => normalize l0 = Ok l) links ls ->
          (forall l, l ∈ ls -> l = "" \/ l ∈ visited c \/ l ∈ queue c')
          /\ (url ∈ ls -> url <> "" -> (url ∉ q) ->
              url ∈ queue c' /\ url ∈ visited c')).
Proof.
  intros Hq Hskip Hf Hfs Hlinks Hnd. cbv zeta.
  destruct (crawl_body_fetch_fields c u q Hq Hskip)
    as (Hv & _ & _ & Hq' & _).
  destruct (try_block_links (Py.rstrip_slash u)
              (entering c q (Py.rstrip_slash u)) r fs links Hf Hfs Hlinks)
    as (c4 & Htry & Hv4 & Hq4 & _).
  rewrite Htry in Hq'. simpl in Hv4, Hq4.
  destruct (for_each_enqueue links c4) as (_ & _ & _ & new & Hnew & _).
  destruct (for_each_enqueue_fresh links c4) as [Hnd' Hin];
    [by rewrite Hq4|].
  rewrite Hq4 in Hnew. rewrite Hnew in Hnd'.
  exists new. split_and!; [congruence | done | |].
  - intros l Hl. apply NoDup_app in Hnd' as (_ & Hdisj & _).
    assert (l ∉ q) as Hlq by (intros Hlq; by apply (Hdisj l Hlq)).
    destruct (Hin l) as [Hold | (Hne & Hvis & Hl0)].
    + rewrite Hnew. apply elem_of_app. by right.
    + by rewrite Hq4 in Hold.
    + rewrite Hv4 in Hvis. by split_and!.
  - intros ls Hall.
    destruct (for_each_enqueue_complete links ls c4 Hall) as [_ Hdone].
    rewrite Hv4, <- Hq' in Hdone.
    split; [done|]. intros Hurl Hne Hnq.
    apply skip_test_false in Hskip as [Hnv _].
    rewrite Hv. split; [|set_solver].
    destruct (Hdone _ Hurl) as [? | [? | ?]]; done.
Qed.

Lemma queue_ok_pass c : queue_ok c -> loop_cond c = true ->
  queue_ok (crawl_body c).1.
Proof.
  intros [Hnd Hin] Hcond.
  destruct (loop_cond_true c Hcond) as (u & q & Hq & _).
  destruct (same_config_pass c Hcond) as (Hb & _).
  rewrite Hq in Hnd, Hin. apply NoDup_cons in Hnd as [_ Hnd].
  assert (forall u', u' ∈ q ->
            u' = base c \/ (u' <> "" /\ exists l0, normalize l0 = Ok u'))
    as Hin' by (intros u' Hu'; apply Hin; by right).
  unfold queue_ok. rewrite Hb.
  destruct (skip_test c (Py.rstrip_slash u)) eqn:Hskip.
  - destruct (crawl_body_skip c u q Hq Hskip) as (_ & _ & -> & _). done.
  - destruct (crawl_body_fetch_fields c u q Hq Hskip) as (_ & _ & _ & -> & _).
    destruct (try_block_queue (Py.rstrip_slash u)
                (entering c q (Py.rstrip_slash u)) Hnd) as [Hnd1 Hin1].
    split; [done|]. intros l Hl.
    destruct (Hin1 l Hl) as [Hold | (Hne & _ & Hl0)]; [by apply Hin'|].
    by right.
Qed.

Lemma requests_ok_pass c : requests_ok c -> loop_cond c = true ->
  requests_ok (crawl_body c).1.
Proof.
  intros [Hnd Hin] Hcond.
  destruct (loop_cond_true c Hcond) as (u & q & Hq & _).
  unfold requests_ok.
  destruct (skip_test c (Py.rstrip_slash u)) eqn:Hskip.
  - rewrite (crawl_body_skip_requested c u q Hq Hskip).
    by destruct (crawl_body_skip c u q Hq Hskip) as (_ & (_ & -> & _) & _).
  - destruct (crawl_body_fetch_fields c u q Hq Hskip)
      as (-> & _ & _ & _ & -> & _).
    apply skip_test_false in Hskip as [Hnew _]. split.
    + apply NoDup_cons. split; [by rewrite Hin | done].
    + intros u'. rewrite elem_of_cons, Hin. set_solver.
Qed.

Lemma keeps_pass c c1 :
  inv c1 -> keeps c c1 -> loop_cond c1 = true -> keeps c (crawl_body c1).1.
Proof.
  intros (Hpv & Hfp & _) [Hsub Hsame] Hcond.
  destruct (loop_cond_true c1 Hcond) as (u & q & Hq & _).
  destruct (skip_test c1 (Py.rstrip_slash u)) eqn:Hskip.
  - destruct (crawl_body_skip c1 u q Hq Hskip)
      as (_ & (_ & Hv & Hp & Hf & _) & _).
    unfold keeps. by rewrite Hv, Hp, Hf.
  - destruct (crawl_body_fetch c1 u q Hq Hskip) as (_ & Hv & _ & _ & Hcase).
    apply skip_test_false in Hskip as [Hnew _].
    unfold keeps. rewrite Hv. split; [set_solver|]. intros url Hurl.
    assert (Py.rstrip_slash u <> url) as Hne by set_solver.
    destruct (Hsame url Hurl) as [Hp Hf]. rewrite <- Hp, <- Hf.
    destruct (fetched c1 (Py.rstrip_slash u)) as [r|].
    + destruct Hcase as (-> & Hforms & _).
      split; [by rewrite lookup_insert_ne|].
      destruct Hforms as [-> | (fs & _ & ->)]; [done|].
      by rewrite lookup_insert_ne.
    + by destruct Hcase as (-> & -> & _).
Qed.

Lemma keeps_refl c : keeps c c.
Proof. by split. Qed.

Lemma init_queue_ok base_url m d s c0 :
  __init__ base_url m d s = Ok c0 -> queue_ok c0 /\ requests_ok c0.
Proof.
  intros [= <-]. unfold queue_ok, requests_ok. simpl. split_and!.
  - apply NoDup_singleton.
  - intros u ->%list_elem_of_singleton. by left.
  - apply NoDup_nil_2.
  - intros u. set_solver.
Qed.

Lemma queue_entry_normalized u :
  (u <> "" /\ exists l0, normalize l0 = Ok u) ->
  u <> "" /\ Py.contains "#" u = false /\ no_trailing_slash u.
Proof.
  intros (Hne & l0 & Hl0). split_and!; [done|..].
  - by eapply normalize_hash_free.
  - by eapply normalize_no_trailing_slash.
Qed.

(** X5 (lines 60, 69, 92 to 95). From a freshly constructed crawler, each
    time the loop condition is evaluated and when [crawl] ends, the queue
    holds no URL twice, and every URL in it other than the seed is not empty,
    holds no [#] and does not end in a slash. *)
Theorem frontier_has_no_duplicates base_url m d s c0 :
  __init__ base_url m d s = Ok c0 ->
  (forall c, reachable c0 c ->
     NoDup (queue c)
     /\ forall u, u ∈ queue c ->
          u = base c0
          \/ (u <> "" /\ Py.contains "#" u = false /\ no_trailing_slash u))
  /\ (forall fuel c' r, crawl_loop fuel c0 = Some (c', r) ->
        NoDup (queue c')
        /\ forall u, u ∈ queue c' ->
             u = base c0
             \/ (u <> "" /\ Py.contains "#" u = false
                 /\ no_trailing_slash u)).
Proof.
  intros Hinit. destruct (init_queue_ok _ _ _ _ _ Hinit) as [Hq0 _].
  destruct (invariant_rule queue_ok c0 Hq0 queue_ok_pass) as [Hreach Hend].
  split.
  - intros c Hc. destruct (Hreach c Hc) as [Hnd Hin]. split; [done|].
    destruct (reachable_same_config _ _ Hc) as (Hb & _).
    intros u Hu. destruct (Hin u Hu) as [-> | Hn]; [by left|].
    right. by apply queue_entry_normalized.
  - intros fuel c' r Hrun. destruct (Hend _ _ _ Hrun) as [Hnd Hin].
    split; [done|].
    destruct (crawl_loop_same_config _ _ _ _ Hrun) as (Hb & _).
    intros u Hu. destruct (Hin u Hu) as [-> | Hn]; [by left|].
    right. by apply queue_entry_normalized.
Qed.

Lemma requests_ok_count c :
  requests_ok c -> List.length (requested (stdout c)) = size (visited c).
Proof.
  intros [Hnd Hin].
  rewrite <- (size_list_to_set (C := gset string)) by done.
  f_equal. apply set_eq. intros u. by rewrite elem_of_list_to_set.
Qed.

(** X6 (lines 68 to 79, 105). From a freshly constructed crawler, each time
    the loop condition is evaluated and when [crawl] ends: no URL was
    requested twice from the session, the URLs requested are exactly the
    visited ones, and their number is at most [max_pages] (none for a budget
    of zero or less: [crawl] then returns at once, the seed still queued). *)
Theorem each_url_requested_once base_url m d s c0 :
  __init__ base_url m d s = Ok c0 ->
  (forall c, reachable c0 c ->
     NoDup (requested (stdout c))
     /\ (forall u, u ∈ requested (stdout c) <-> u ∈ visited c)
     /\ (Z.of_nat (List.length (requested (stdout c))) <= Z.max 0 m)%Z)
  /\ (forall fuel c' r, crawl_loop fuel c0 = Some (c', r) ->
        NoDup (requested (stdout c'))
        /\ (forall u, u ∈ requested (stdout c') <-> u ∈ visited c')
        /\ (Z.of_nat (List.length (requested (stdout c'))) <= Z.max 0 m)%Z)
  /\ ((m <= 0)%Z ->
      forall fuel,
        crawl fuel c0
        = Some (c0, Ok {| result_pages := ∅; result_forms := ∅ |})).
Proof.
  intros Hinit. destruct (init_queue_ok _ _ _ _ _ Hinit) as [_ Hr0].
  pose proof (init_inv _ _ _ _ _ Hinit) as Hinv.
  destruct (init_fields _ _ _ _ _ Hinit) as (_ & Hm & _ & Hv & Hq & Hp & Hf).
  destruct (invariant_rule requests_ok c0 Hr0 requests_ok_pass)
    as [Hreach Hend].
  split_and!.
  - intros c Hc. pose proof (Hreach c Hc) as Hok.
    destruct (reachable_inv _ _ Hinv Hc) as (_ & _ & _ & _ & Hsize & _).
    destruct (reachable_same_config _ _ Hc) as (_ & Hmc & _).
    rewrite (requests_ok_count c Hok). destruct Hok as [Hnd Hin].
    split_and!; [done..|]. congruence.
  - intros fuel c' r Hrun. pose proof (Hend _ _ _ Hrun) as Hok.
    destruct (crawl_loop_inv _ _ _ _ Hinv Hrun)
      as (_ & _ & _ & _ & Hsize & _).
    destruct (crawl_loop_same_config _ _ _ _ Hrun) as (_ & Hmc & _).
    rewrite (requests_ok_count c' Hok). destruct Hok as [Hnd Hin].
    split_and!; [done..|]. congruence.
  - intros Hle fuel. unfold crawl.
    assert (loop_cond c0 = false) as Hcond.
    { unfold loop_cond. rewrite Hq, Hv, Hm, size_empty. apply Z.ltb_ge. lia. }
    assert (crawl_loop fuel c0 = Some (c0, Ok tt)) as ->
      by (destruct fuel; simpl; by rewrite Hcond).
    by rewrite Hp, Hf.
Qed.

(** X7 (lines 73, 82, 87, 105). From a freshly constructed crawler, what is
    recorded for a visited URL never changes afterwards: [visited] only
    grows, and for every URL visited by some state of the loop, its entry in
    [pages] and its entry in [forms] (or their absence) are the same in every
    later state and when [crawl] ends; no page is overwritten. *)
Theorem visited_entries_are_final base_url m d s c0 c :
  __init__ base_url m d s = Ok c0 -> reachable c0 c ->
  (forall c', reachable c c' -> keeps c c')
  /\ (forall fuel c' r, crawl_loop fuel c = Some (c', r) -> keeps c c').
Proof.
  intros Hinit Hc.
  pose proof (reachable_inv _ _ (init_inv _ _ _ _ _ Hinit) Hc) as Hinv.
  destruct (invariant_rule (fun c' => inv c' /\ keeps c c') c)
    as [Hreach Hend].
  - split; [done | apply keeps_refl].
  - intros c1 [Hinv1 Hk] Hcond. split; [by apply inv_pass|].
    by apply keeps_pass.
  - split.
    + intros c' Hc'. by apply Hreach.
    + intros fuel c' r Hrun. by eapply Hend.
Qed.

(** X8 (lines 66 to 109). Calling [crawl] again on a crawler whose [crawl]
    has returned makes no pass and returns the same dictionary. *)
Theorem crawl_again_returns_the_same fuel c c' r :
  crawl fuel c = Some (c', Ok r) ->
  forall fuel', crawl fuel' c' = Some (c', Ok r).
Proof.
  unfold crawl.
  destruct (crawl_loop fuel c) as [[c1 [[]|e]]|] eqn:Hrun; try done.
  intros [= <- <-] fuel'. apply crawl_loop_exit in Hrun.
  assert (crawl_loop fuel' c1 = Some (c1, Ok tt)) as ->
    by (destruct fuel'; simpl; by rewrite Hrun).
  done.
Qed.

Lemma is_same_domain_self url r :
  urlparse url = Ok r -> is_same_domain url url = true.
Proof. unfold is_same_domain. intros ->. simpl. apply String.eqb_refl. Qed.

(** [time.sleep] on an [int]: the seconds must fit a C timestamp in
    nanoseconds, and must not be negative. *)
Lemma time_sleep_int z :
  time_sleep (PyInt z)
  = if ((z <? -9223372036) || (9223372036 <? z))%Z then Raise OverflowError
    else if (z <? 0)%Z then Raise ValueError
    else pysleep (z * 1000000000)%Z.
Proof.
  unfold time_sleep, PyTime_FromSecondsObject.
  change PyTime_MIN with (-9223372036854775808)%Z.
  change PyTime_MAX with 9223372036854775807%Z.
  change (Z.quot (-9223372036854775808) SEC_TO_NS) with (-9223372036)%Z.
  change (Z.quot 9223372036854775807 SEC_TO_NS) with 9223372036%Z.
  change SEC_TO_NS with 1000000000%Z.
  destruct (Z.ltb_spec z (-9223372036854775808)),
    (Z.ltb_spec 9223372036854775807 z),
    (Z.ltb_spec z (-9223372036)), (Z.ltb_spec 9223372036 z);
    simpl; try lia; try done.
  destruct (Z.ltb_spec (z * 1000000000) 0), (Z.ltb_spec z 0);
    simpl; try lia; done.
Qed.

(** X9 (lines 104 to 107). [time.sleep] is called in the [finally] block,
    outside the [try]: with a delay for which [time.sleep] raises, a budget
    of at least one and a base URL that [urlparse] accepts, [crawl] requests
    the base URL, marks it visited and then raises the exception of
    [time.sleep]; no second URL is requested. [time.sleep] raises for every
    negative [int] (a [ValueError], or an [OverflowError] below
    -9223372036), for every [int] above 9223372036 (an [OverflowError]), for
    a NaN (a [ValueError]) and for an infinity (an [OverflowError]). *)
Theorem rejected_delay_raises :
  (forall base_url m d s c0 e,
      __init__ base_url m d s = Ok c0 -> (0 < m)%Z ->
      time_sleep d = Raise e ->
      (exists r, urlparse (Py.rstrip_slash base_url) = Ok r) ->
      forall fuel, 1 <= fuel ->
        exists c',
          crawl fuel c0 = Some (c', Raise e)
          /\ visited c' = {[Py.rstrip_slash base_url]}
          /\ requested (stdout c') = [Py.rstrip_slash base_url]
          /\ session c'
             = (session_get (session c0) (Py.rstrip_slash base_url)).1)
  /\ (forall z, (z < 0)%Z ->
        time_sleep (PyInt z)
        = Raise (if (z <? -9223372036)%Z then OverflowError else ValueError))
  /\ (forall z, (9223372036 < z)%Z ->
        time_sleep (PyInt z) = Raise OverflowError)
  /\ time_sleep (PyFloat S754_nan) = Raise ValueError
  /\ (forall sign, time_sleep (PyFloat (S754_infinity sign))
                   = Raise OverflowError).
Proof.
  split_and!.
  - intros base_url m d s c0 e Hinit Hm Hd [r Hparse] fuel Hfuel.
    destruct (init_fields _ _ _ _ _ Hinit)
      as (Hb & Hmax & Hdelay & Hv & Hq & _).
    assert (requested (stdout c0) = []) as Hreq0 by (by injection Hinit as <-).
    set (b := Py.rstrip_slash base_url) in *.
    assert (Py.rstrip_slash b = b) as Hbb by apply rstrip_fixed, rstrip_ends.
    assert (loop_cond c0 = true) as Hcond.
    { unfold loop_cond. rewrite Hq, Hv, Hmax, size_empty. by apply Z.ltb_lt. }
    assert (skip_test c0 (Py.rstrip_slash b) = false) as Hskip.
    { unfold skip_test. rewrite Hbb, Hb, Hv, (is_same_domain_self b r Hparse).
      by rewrite bool_decide_eq_false_2 by set_solver. }
    destruct (crawl_body_fetch c0 b [] Hq Hskip) as (_ & _ & Hs & _).
    destruct (crawl_body_fetch_fields c0 b [] Hq Hskip)
      as (Hv' & _ & _ & _ & Hreq & Hres).
    rewrite Hbb in Hs, Hv', Hreq. rewrite Hv in Hv'. rewrite Hreq0 in Hreq.
    exists (crawl_body c0).1. split_and!; [|set_solver|done..].
    destruct fuel as [|fuel]; [lia|]. unfold crawl. simpl. rewrite Hcond.
    destruct (crawl_body c0) as [c1 r1]. simpl in *. subst r1.
    by rewrite Hdelay, Hd.
  - intros z Hz. rewrite time_sleep_int.
    destruct (Z.ltb_spec z (-9223372036)), (Z.ltb_spec 9223372036 z),
      (Z.ltb_spec z 0); simpl; try lia; done.
  - intros z Hz. rewrite time_sleep_int.
    destruct (Z.ltb_spec z (-9223372036)), (Z.ltb_spec 9223372036 z);
      simpl; try lia; done.
  - reflexivity.
  - by intros [].
Qed.

Lemma settled_pass c l :
  loop_cond c = true -> Py.rstrip_slash l = l -> settled c l ->
  settled (crawl_body c).1 l.
Proof.
  intros Hcond Hl Hs.
  destruct (loop_cond_true c Hcond) as (u & q & Hq & _).
  destruct (same_config_pass c Hcond) as (Hb & _).
  unfold settled. rewrite Hb.
  destruct (skip_test c (Py.rstrip_slash u)) eqn:Hskip.
  - destruct (crawl_body_skip c u q Hq Hskip)
      as (_ & (_ & -> & _) & -> & _).
    destruct Hs as [? | [? | [Hin | ?]]]; auto.
    rewrite Hq in Hin. apply elem_of_cons in Hin as [-> | Hin]; [|auto].
    rewrite Hl in Hskip. unfold skip_test in Hskip.
    apply orb_prop in Hskip as [Hv | Hd].
    + right; left. by apply bool_decide_eq_true in Hv.
    + do 3 right. by apply negb_true_iff in Hd.
  - destruct (crawl_body_fetch c u q Hq Hskip) as (_ & -> & _ & _ & Hcase).
    destruct Hs as [? | [? | [Hin | ?]]]; auto.
    + right; left. set_solver.
    + rewrite Hq in Hin. apply elem_of_cons in Hin as [-> | Hin].
      * right; left. rewrite Hl. set_solver.
      * right; right; left.
        destruct (fetched c (Py.rstrip_slash u)).
        -- destruct Hcase as (_ & _ & (new & -> & _) & _).
           apply elem_of_app. by left.
        -- by destruct Hcase as (_ & _ & -> & _).
Qed.

Lemma links_of_page_normalized url body ls l :
  links_of_page url body ls -> l ∈ ls -> Py.rstrip_slash l = l.
Proof.
  intros (_ & links & _ & Hall) Hl.
  induction Hall as [|l0 l' links ls Hl0 _ IH]; [by apply elem_of_nil in Hl|].
  apply elem_of_cons in Hl as [-> | Hl]; [|by apply IH].
  by eapply rstrip_slash_normalized.
Qed.

Lemma closed_pass c : inv c -> closed c -> loop_cond c = true ->
  closed (crawl_body c).1.
Proof.
  intros (Hpv & _) Hclosed Hcond url body ls l Hpage Hlinks Hl.
  pose proof (links_of_page_normalized _ _ _ _ Hlinks Hl) as Hnorm.
  assert (pages c !! url = Some body -> settled (crawl_body c).1 l) as Hold.
  { intros Hp. apply settled_pass; [done..|]. by eapply Hclosed. }
  destruct (loop_cond_true c Hcond) as (u & q & Hq & _).
  destruct (skip_test c (Py.rstrip_slash u)) eqn:Hskip.
  { apply Hold.
    by destruct (crawl_body_skip c u q Hq Hskip) as (_ & (_ & _ & <- & _) & _). }
  destruct (crawl_body_fetch c u q Hq Hskip) as (_ & Hv & _ & _ & Hcase).
  destruct (fetched c (Py.rstrip_slash u)) as [r|] eqn:Hf.
  2:{ apply Hold. by destruct Hcase as (<- & _). }
  destruct Hcase as (Hp & _). rewrite Hp in Hpage.
  destruct (decide (Py.rstrip_slash u = url)) as [<- | Hne].
  2:{ apply Hold. by rewrite lookup_insert_ne in Hpage. }
  rewrite lookup_insert_eq in Hpage. injection Hpage as <-.
  destruct Hlinks as ([fs Hfs] & links & Hls & Hall).
  destruct (crawl_body_fetch_fields c u q Hq Hskip) as (_ & _ & _ & Hq' & _).
  destruct (try_block_links (Py.rstrip_slash u)
              (entering c q (Py.rstrip_slash u)) r fs links Hf Hfs Hls)
    as (c4 & Htry & Hv4 & _).
  rewrite Htry in Hq'.
  destruct (for_each_enqueue_complete links ls c4 Hall) as [_ Hdone].
  unfold settled. rewrite Hv, Hq'.
  destruct (Hdone l Hl) as [? | [Hin | ?]]; auto.
  right; left. rewrite Hv4 in Hin. simpl in Hin. set_solver.
Qed.

Lemma init_closed base_url m d s c0 :
  __init__ base_url m d s = Ok c0 -> closed c0.
Proof.
  intros (_ & _ & _ & _ & _ & Hp0 & _)%init_fields url body ls l Hp.
  by rewrite Hp0, lookup_empty in Hp.
Qed.

(** X10 (lines 66 to 109). From a freshly constructed crawler, every link of
    every stored page whose processing ran to its end is settled each time the
    loop condition is evaluated: it is empty, visited, waiting in the queue,
    or off the base URL's domain. So when [crawl] returns before the budget
    is used up, the queue is empty and every such link that is not empty and
    is on the base URL's domain has been visited: the crawl covers what can
    be reached from the seed. *)
Theorem crawl_settles_every_link base_url m d s c0 :
  __init__ base_url m d s = Ok c0 ->
  (forall c, reachable c0 c -> closed c)
  /\ (forall fuel c' r,
        crawl fuel c0 = Some (c', Ok r) ->
        closed c'
        /\ ((Z.of_nat (size (visited c')) < m)%Z ->
            queue c' = []
            /\ forall url body ls l,
                 result_pages r !! url = Some body ->
                 links_of_page url body ls -> l ∈ ls ->
                 l = "" \/ l ∈ visited c'
                 \/ is_same_domain (base c0) l = false)).
Proof.
  intros Hinit. pose proof (init_inv _ _ _ _ _ Hinit) as Hinv.
  destruct (init_fields _ _ _ _ _ Hinit) as (_ & Hm & _).
  destruct (invariant_rule (fun c => inv c /\ closed c) c0)
    as [Hreach Hend].
  - split; [done | by eapply init_closed].
  - intros c [Hi Hc] Hcond. split; [by apply inv_pass | by apply closed_pass].
  - split; [intros c Hc; by apply Hreach|].
    intros fuel c' r. unfold crawl.
    destruct (crawl_loop fuel c0) as [[c1 [[]|e]]|] eqn:Hrun; try done.
    intros [= <- <-]. destruct (Hend _ _ _ Hrun) as [_ Hclosed].
    split; [done|]. intros Hlt.
    destruct (crawl_loop_same_config _ _ _ _ Hrun) as (Hb & Hmc & _).
    assert (queue c1 = []) as Hq.
    { destruct (loop_cond_false c1 (crawl_loop_exit _ _ _ Hrun)); [done|].
      lia. }
    split; [done|]. simpl. intros url body ls l Hp Hlinks Hl.
    destruct (Hclosed url body ls l Hp Hlinks Hl) as [? | [? | [Hin | ?]]];
      auto.
    + rewrite Hq in Hin. by apply elem_of_nil in Hin.
    + right; right. congruence.
Qed.

End MoreCrawl.

(** * The properties on the example sites *)

(** Takes the crawler that a call of the constructor returns. *)
Ltac constructed init :=
  let r := eval hnf in init in
  match r with Ok ?c => exists c end.

(** Computes the observation [obs] of the run in the goal, and names the
    final instance and the result of the run. *)
Ltac observe_run obs c' r Hobs Hrun :=
  match goal with
  | |- context [@crawl ?W ?n ?c] =>
      assert (match @crawl W n c with
              | Some (x, Ok y) => obs x y
              | _ => false
              end = true) as Hobs by (vm_compute; reflexivity);
      destruct (@crawl W n c) as [[c' [r|?]]|] eqn:Hrun;
      [cbv beta in Hobs | discriminate Hobs..]
  end.

(** C7, the claim as stated fails: two URLs of the same host are not on
    the same domain when one of them names the port, or a user, or writes the
    host in capitals. *)
Lemma same_host_is_not_same_domain :
  exists b r1 r2 r3,
    @urlparse offline "http://h/a" = Ok b
    /\ @urlparse offline "http://h:80/a" = Ok r1
    /\ @urlparse offline "http://user@h/a" = Ok r2
    /\ @urlparse offline "http://H/a" = Ok r3
    /\ hostname b = Some "h" /\ hostname r1 = Some "h"
    /\ hostname r2 = Some "h" /\ hostname r3 = Some "h"
    /\ @is_same_domain offline "http://h/a" "http://h:80/a" = false
    /\ @is_same_domain offline "http://h/a" "http://user@h/a" = false
    /\ @is_same_domain offline "http://h/a" "http://H/a" = false.
Proof. do 4 eexists. split_and!; reflexivity. Qed.

(** Same authority whatever the scheme, path and query; another host, or
    the same host with a port, is another authority; an unparsable URL is
    on no domain. *)
Lemma is_same_domain_compares_netloc_witness :
  @is_same_domain offline "http://h/a?x=1" "https://h/b/c?y=2#top" = true
  /\ @is_same_domain offline "http://h/a" "http://other.com/a" = false
  /\ @is_same_domain offline "http://h:80/a" "http://h/a" = false
  /\ @is_same_domain offline "http://[bad" "http://h" = false.
Proof.
  destruct (@is_same_domain_compares_netloc offline)
    as (_ & _ & Hsame & _ & Hbad).
  split_and!.
  - apply (Hsame "http" "https" "h" "h" "/a?x=1" "/b/c?y=2#top");
      reflexivity.
  - apply (Hsame "http" "http" "h" "other.com" "/a" "/a"); reflexivity.
  - apply (Hsame "http" "http" "h:80" "h" "/a" "/a"); reflexivity.
  - apply (Hbad "http://[bad" "http://h" ValueError). left. reflexivity.
Defined.

(** [time.sleep] on the default delay; on the largest [int] that fits; on
    [1e10] and [-1e10], which do not fit; and on [9223372036.854776], whose
    product with [1e9] rounds to [2^63], passes the range test and becomes
    the least timestamp, which is negative. *)
Example time_sleep_examples :
  PyTime_FromSecondsObject default_delay = Ok 200000000%Z
  /\ PyTime_FromSecondsObject (PyInt 9223372036) = Ok 9223372036000000000%Z
  /\ @time_sleep offline (PyInt 9223372037) = Raise OverflowError
  /\ @time_sleep offline
       (PyFloat (S754_finite false 5242880000000000 (-19)))
     = Raise OverflowError
  /\ @time_sleep offline
       (PyFloat (S754_finite true 5242880000000000 (-19)))
     = Raise OverflowError
  /\ PyTime_FromSecondsObject
       (PyFloat (S754_finite false 4835703278458517 (-19)))
     = Ok PyTime_MIN
  /\ @time_sleep offline
       (PyFloat (S754_finite false 4835703278458517 (-19)))
     = Raise ValueError
  /\ @time_sleep offline (PyFloat (S754_finite true 1 (-1074)))
     = Raise ValueError
  /\ @time_sleep offline (PyFloat (S754_zero true)) = Ok tt.
Proof. split_and!; vm_compute; reflexivity. Qed.

(** When the parser rejects the markup of a page, the page is stored
    without forms, nothing is queued, the crawler prints that an unexpected
    error occurred, and the crawl goes on to its end. *)
Example parser_rejection_is_caught :
  exists c0 c' r,
    @__init__ rejected "http://h/" 10 default_delay None = Ok c0
    /\ @extract_forms rejected "<![x y]>" "http://h" = Raise OtherException
    /\ @crawl rejected 5 c0 = Some (c', Ok r)
    /\ result_pages r = {["http://h" := "<![x y]>"]}
    /\ result_forms r = ∅
    /\ visited c' = {["http://h"]}
    /\ nth 1 (stdout c') (Initializing "") = UnexpectedError "http://h".
Proof.
  constructed (@__init__ rejected "http://h/" 10 default_delay None).
  observe_run (fun (c : @Crawler rejected) (r : CrawlResult) =>
                 bool_decide (result_pages r = {["http://h" := "<![x y]>"]})
                 && bool_decide (result_forms r = ∅)
                 && bool_decide (visited c = {["http://h"]})
                 && match stdout c with
                    | _ :: UnexpectedError url :: _ => String.eqb url "http://h"
                    | _ => false
                    end)
              c' r Hobs Hrun.
  apply andb_prop in Hobs as [Hobs Hout].
  apply andb_prop in Hobs as [Hobs Hv].
  apply andb_prop in Hobs as [Hp Hf].
  apply bool_decide_eq_true_1 in Hv.
  apply bool_decide_eq_true_1 in Hp.
  apply bool_decide_eq_true_1 in Hf.
  exists c', r.
  split; [reflexivity|]. split; [reflexivity|]. split; [reflexivity|].
  split; [exact Hp|]. split; [exact Hf|]. split; [exact Hv|].
  destruct (stdout c') as [|l0 [|[] out]]; try discriminate Hout.
  apply String.eqb_eq in Hout. simpl. by rewrite Hout.
Qed.

(** A link with a fragment and a trailing slash, normalized once and
    twice. *)
Example normalize_example :
  @normalize offline "http://h/b/#x" = Ok "http://h/b"
  /\ @normalize offline "http://h/b" = Ok "http://h/b".
Proof. split; reflexivity. Qed.

(** The crawl of the example site returns the home page and its form. *)
Lemma forms_within_pages_witness :
  exists c0 c' r,
    @__init__ example "http://h/" 10 default_delay None = Ok c0
    /\ @crawl example 20 c0 = Some (c', Ok r)
    /\ is_Some (result_forms r !! "http://h")
    /\ dom (result_forms r) ⊆ dom (result_pages r)
    /\ map_Forall (fun _ fs => fs <> []) (result_forms r).
Proof.
  constructed (@__init__ example "http://h/" 10 default_delay None).
  observe_run (fun (c : @Crawler example) (r : CrawlResult) =>
                 bool_decide (is_Some (result_forms r !! "http://h")))
              c' r Hobs Hrun.
  exists c', r. split; [reflexivity|]. split; [reflexivity|].
  split; [by apply bool_decide_eq_true_1 in Hobs|].
  eapply (@forms_within_pages example "http://h/" 10 default_delay None _
            eq_refl), Hrun.
Defined.

(** With a budget of two the crawl of the example site ends with a
    non-empty queue: one page stored, one fetch failed. *)
Lemma visited_within_budget_witness :
  exists c0 c' r,
    @__init__ example "http://h/" 2 default_delay None = Ok c0
    /\ @crawl example 20 c0 = Some (c', Ok r)
    /\ queue c' = ["http://h/b"; "http://other.com/c"]
    /\ failed_count c' = 1
    /\ (Z.of_nat (size (visited c')) <= 2)%Z
    /\ (Z.of_nat (size (pages c') + failed_count c') <= 2)%Z
    /\ failed_to_fetch_lines (stdout c') <= failed_count c'
    /\ result_pages r = pages c'
    /\ (queue c' = [] \/ Z.of_nat (size (visited c')) = 2%Z).
Proof.
  constructed (@__init__ example "http://h/" 2 default_delay None).
  observe_run (fun (c : @Crawler example) (r : CrawlResult) =>
                 bool_decide (queue c = ["http://h/b"; "http://other.com/c"])
                 && bool_decide (failed_count c = 1))
              c' r Hobs Hrun.
  apply andb_prop in Hobs as [Hq%bool_decide_eq_true_1 Hf%bool_decide_eq_true_1].
  exists c', r. split; [reflexivity|]. split; [reflexivity|].
  destruct (@visited_within_budget example "http://h/" 2 default_delay None _
              eq_refl ltac:(lia)) as (_ & _ & Hend).
  destruct (Hend _ _ _ Hrun) as (Hv & Hsum & Hlines & Hres).
  destruct (Hres r eq_refl) as [Hpages Hexit]. by split_and!.
Defined.

(** The scenario of the specification: the home page links to [/a], [/b]
    and another site; the two pages of the site are visited, the other
    site's link is queued, then skipped when it is taken off the queue, and is
    never visited or requested. *)
Example crawl_example_site :
  exists c0 c' r,
    @__init__ example "http://h/" 10 default_delay None = Ok c0
    /\ @crawl example 20 c0 = Some (c', Ok r)
    /\ visited c' = {["http://h"; "http://h/a"; "http://h/b"]}
    /\ dom (result_pages r) = {["http://h"]}
    /\ session c' = ["http://h/b"; "http://h/a"; "http://h"]
    /\ hd (Initializing "") (stdout c') = Skipping "http://other.com/c".
Proof.
  constructed (@__init__ example "http://h/" 10 default_delay None).
  observe_run (fun (c : @Crawler example) (r : CrawlResult) =>
                 bool_decide (visited c
                              = {["http://h"; "http://h/a"; "http://h/b"]})
                 && bool_decide (dom (result_pages r) = {["http://h"]})
                 && bool_decide (session c
                                 = ["http://h/b"; "http://h/a"; "http://h"])
                 && match stdout c with
                    | Skipping url :: _ => String.eqb url "http://other.com/c"
                    | _ => false
                    end)
              c' r Hobs Hrun.
  apply andb_prop in Hobs as [Hobs Hout].
  apply andb_prop in Hobs as [Hobs Hs].
  apply andb_prop in Hobs as [Hv Hp].
  apply bool_decide_eq_true_1 in Hv.
  apply bool_decide_eq_true_1 in Hp.
  apply bool_decide_eq_true_1 in Hs.
  exists c', r.
  split; [reflexivity|]. split; [reflexivity|]. split; [exact Hv|].
  split; [exact Hp|]. split; [exact Hs|].
  destruct (stdout c') as [|[] out]; try discriminate Hout.
  apply String.eqb_eq in Hout. simpl. by rewrite Hout.
Qed.

(** C1, the claim as stated fails: the home page of the example site links
    to another site, and after the pass that fetches the home page that link
    is in the queue (the crawler printed that it added it), although it is
    not on the base URL's domain. *)
Lemma cross_domain_link_is_queued :
  exists c0,
    @__init__ example "http://h/" 10 default_delay None = Ok c0
    /\ @reachable example c0 (@crawl_body example c0).1
    /\ queue (@crawl_body example c0).1
       = ["http://h/a"; "http://h/b"; "http://other.com/c"]
    /\ hd (Initializing "") (stdout (@crawl_body example c0).1)
       = VisitedCount 1
    /\ nth 1 (stdout (@crawl_body example c0).1) (Initializing "")
       = Added "http://other.com/c"
    /\ @is_same_domain example (base c0) "http://other.com/c" = false.
Proof.
  constructed (@__init__ example "http://h/" 10 default_delay None).
  split; [reflexivity|].
  split; [apply reach_pass; [apply reach_start | reflexivity..]|].
  split_and!; vm_compute; reflexivity.
Qed.

(** On the example site: after the first pass the other site's link is
    queued, and still nothing off the base URL's domain is visited, stored
    or about to be fetched. *)
Lemma only_same_domain_fetched_witness :
  exists c0,
    @__init__ example "http://h/" 10 default_delay None = Ok c0
    /\ let c := (@crawl_body example c0).1 in
       ("http://other.com/c" ∈ queue c)
       /\ (forall url,
             url ∈ visited c \/ url ∈ dom (pages c) \/ url ∈ dom (forms c) ->
             @is_same_domain example (base c0) url = true)
       /\ (forall url, @next_fetch example c = Some url ->
             @is_same_domain example (base c0) url = true).
Proof.
  constructed (@__init__ example "http://h/" 10 default_delay None).
  split; [reflexivity|]. cbv zeta. split.
  - apply (bool_decide_unpack _). vm_compute. exact I.
  - match goal with |- context [@crawl_body _ ?c0] =>
      destruct (@only_same_domain_fetched example "http://h/" 10 default_delay None
                  c0 eq_refl (@crawl_body example c0).1) as (Hv & Hn & _)
    end.
    + apply reach_pass; [apply reach_start | reflexivity..].
    + by split.
Defined.

(** On the example site the fetch of [/a] fails: the pass marks it visited,
    stores nothing, queues nothing and ends normally. *)
Lemma failed_fetch_marks_visited_witness :
  exists c0,
    @__init__ example "http://h/" 10 default_delay None = Ok c0
    /\ let c := (@crawl_body example c0).1 in
       let c' := (@crawl_body example c).1 in
       ("http://h/a" ∈ visited c' /\ pages c' !! "http://h/a" = None
        /\ forms c' !! "http://h/a" = None)
       /\ queue c' = ["http://h/b"; "http://other.com/c"]
       /\ (@crawl_body example c).2 = Ok tt.
Proof.
  constructed (@__init__ example "http://h/" 10 default_delay None).
  split; [reflexivity|]. cbv zeta.
  match goal with |- context [(@crawl_body _ (@crawl_body _ ?c0).1).1] =>
    destruct (@failed_fetch_marks_visited example "http://h/" 10 default_delay None
                c0 (@crawl_body example c0).1 "http://h/a"
                ["http://h/b"; "http://other.com/c"] eq_refl)
      as (Hmarked & Hq & Hret & _)
  end.
  - apply reach_pass; [apply reach_start | reflexivity..].
  - vm_compute. reflexivity.
  - vm_compute. reflexivity.
  - apply (bool_decide_eq_false_1 _). vm_compute. reflexivity.
  - vm_compute. reflexivity.
  - left. exists RequestException. vm_compute. reflexivity.
  - split; [exact Hmarked|]. split; [exact Hq|]. rewrite Hret. reflexivity.
Defined.

(** The crawl of the example site ends, and returns: [time.sleep(0.2)]
    returns. *)
Lemma crawl_terminates_witness :
  exists c0,
    @__init__ example "http://h/" 10 default_delay None = Ok c0
    /\ @time_sleep example default_delay = Ok tt
    /\ exists fuel c',
         forall fuel', fuel <= fuel' ->
           @crawl example fuel' c0
           = Some (c', Ok {| result_pages := pages c';
                             result_forms := forms c' |}).
Proof.
  constructed (@__init__ example "http://h/" 10 default_delay None).
  split; [reflexivity|]. split; [reflexivity|].
  match goal with |- context [@crawl _ _ ?c0] =>
    destruct (@crawl_terminates example c0)
      as (_ & fuel & c' & r & Hrun & Hret & _)
  end.
  exists fuel, c'. intros fuel' Hle. rewrite (Hrun fuel' Hle).
  by rewrite Hret.
Defined.

(** C4, the claim as stated fails: [urlparse] rejects the base URL
    [http://[bad] (an opening bracket without its closing bracket), and the
    constructor returns a crawler for it all the same. *)
Lemma unparsable_base_url_is_accepted :
  @urlparse offline "http://[bad" = Raise ValueError
  /\ exists c0,
       @__init__ offline "http://[bad" 200 default_delay None = Ok c0
       /\ base c0 = "http://[bad" /\ queue c0 = ["http://[bad"].
Proof. split; [reflexivity|]. eexists. split; [reflexivity|]. by split. Qed.

(** For that base URL [crawl] returns at once, with nothing fetched. *)
Lemma constructor_accepts_any_base_url_witness :
  exists c0,
    @__init__ offline "http://[bad" 200 default_delay None = Ok c0
    /\ exists c',
         @crawl offline 1 c0
         = Some (c', Ok {| result_pages := ∅; result_forms := ∅ |})
         /\ session c' = session c0.
Proof.
  constructed (@__init__ offline "http://[bad" 200 default_delay None).
  split; [reflexivity|].
  destruct (@constructor_accepts_any_base_url offline "http://[bad" 200
              default_delay None) as (_ & Hrun & _).
  apply (Hrun _ ValueError eq_refl eq_refl 1). lia.
Defined.

(** C5 at a base URL with a fragment: the crawler visits the URL with its
    fragment and stores the page under it; the page links to itself without
    the fragment, so the same page is requested a second time. *)
Theorem seed_fragment_is_visited :
  exists c0 c' r,
    @__init__ one_page "http://h/p#top" 5 default_delay None = Ok c0
    /\ @crawl one_page 5 c0 = Some (c', Ok r)
    /\ Py.contains "#" "http://h/p#top" = true
    /\ ("http://h/p#top" ∈ visited c')
    /\ is_Some (result_pages r !! "http://h/p#top")
    /\ session c' = ["http://h/p"; "http://h/p#top"].
Proof.
  constructed (@__init__ one_page "http://h/p#top" 5 default_delay None).
  observe_run (fun (c : @Crawler one_page) (r : CrawlResult) =>
                 bool_decide ("http://h/p#top" ∈ visited c)
                 && bool_decide (is_Some (result_pages r !! "http://h/p#top"))
                 && bool_decide (session c = ["http://h/p"; "http://h/p#top"]))
              c' r Hobs Hrun.
  apply andb_prop in Hobs as [[Hv Hp]%andb_prop Hs].
  apply bool_decide_eq_true_1 in Hv, Hp, Hs.
  exists c', r. by split_and!.
Qed.


(** * The further properties on the example sites *)

(** On the broken site the form of the home page cannot be extracted: the
    page is stored all the same, the URL is visited and the pass ends
    normally. *)
Lemma extraction_errors_are_isolated_witness :
  exists c0,
    @__init__ broken "http://h" 10 default_delay None = Ok c0
    /\ let c' := (@crawl_body broken c0).1 in
       ("http://h" ∈ visited c')
       /\ (@crawl_body broken c0).2 = Ok tt
       /\ pages c' = <["http://h" := broken_form_page]> ∅
       /\ forms c' = ∅ /\ queue c' = [].
Proof.
  constructed (@__init__ broken "http://h" 10 default_delay None).
  split; [reflexivity|]. cbv zeta.
  match goal with |- context [@crawl_body _ ?c0] =>
    destruct (@extraction_errors_are_isolated broken c0 "http://h" []
                (mkResponse 200 broken_form_page) eq_refl)
      as ([Hv Hr] & Hforms & _)
  end.
  - vm_compute. reflexivity.
  - vm_compute. reflexivity.
  - destruct (Hforms ValueError) as (Hp & Hf & Hq);
      [vm_compute; reflexivity|].
    split_and!; [exact Hv | exact Hr | exact Hp | exact Hf | exact Hq].
Defined.

(** The links of the home page of the example site are queued, each
    once. *)
Lemma links_are_queued_once_witness :
  exists c0,
    @__init__ example "http://h/" 10 default_delay None = Ok c0
    /\ exists new,
         queue (@crawl_body example c0).1 = new /\ NoDup new
         /\ forall l, l ∈ new -> l <> "".
Proof.
  constructed (@__init__ example "http://h/" 10 default_delay None).
  split; [reflexivity|].
  assert (exists fs, @extract_forms example example_home "http://h" = Ok fs)
    as [fs Hfs] by (eexists; vm_compute; reflexivity).
  assert (exists ls, @extract_links example example_home "http://h" = Ok ls)
    as [links Hlinks] by (eexists; vm_compute; reflexivity).
  match goal with |- context [@crawl_body _ ?c0] =>
    destruct (@links_are_queued_once example c0 "http://h" []
                (mkResponse 200 example_home) fs links eq_refl)
      as (new & Hq & Hnd & Hnew & _)
  end.
  - vm_compute. reflexivity.
  - vm_compute. reflexivity.
  - exact Hfs.
  - exact Hlinks.
  - apply NoDup_nil_2.
  - exists new. split_and!; [exact Hq | exact Hnd |].
    intros l Hl. by destruct (Hnew l Hl).
Defined.

(** After the first pass on the example site. *)
Lemma frontier_has_no_duplicates_witness :
  exists c0,
    @__init__ example "http://h/" 10 default_delay None = Ok c0
    /\ queue (@crawl_body example c0).1
       = ["http://h/a"; "http://h/b"; "http://other.com/c"]
    /\ NoDup (queue (@crawl_body example c0).1).
Proof.
  constructed (@__init__ example "http://h/" 10 default_delay None).
  split; [reflexivity|]. split; [vm_compute; reflexivity|].
  match goal with |- context [@crawl_body _ ?c0] =>
    destruct (@frontier_has_no_duplicates example "http://h/" 10 default_delay None
                c0 eq_refl) as [Hreach _];
    destruct (Hreach (@crawl_body example c0).1) as [Hnd _]
  end.
  - apply reach_pass; [apply reach_start | reflexivity..].
  - exact Hnd.
Defined.

(** After the first pass on the example site one URL was requested. *)
Lemma each_url_requested_once_witness :
  exists c0,
    @__init__ example "http://h/" 10 default_delay None = Ok c0
    /\ requested (stdout (@crawl_body example c0).1) = ["http://h"]
    /\ NoDup (requested (stdout (@crawl_body example c0).1))
    /\ forall u, u ∈ requested (stdout (@crawl_body example c0).1)
                 <-> u ∈ visited (@crawl_body example c0).1.
Proof.
  constructed (@__init__ example "http://h/" 10 default_delay None).
  split; [reflexivity|]. split; [vm_compute; reflexivity|].
  match goal with |- context [@crawl_body _ ?c0] =>
    destruct (@each_url_requested_once example "http://h/" 10 default_delay None
                c0 eq_refl) as [Hreach _];
    destruct (Hreach (@crawl_body example c0).1) as (Hnd & Hin & _)
  end.
  - apply reach_pass; [apply reach_start | reflexivity..].
  - split; [exact Hnd | exact Hin].
Defined.

(** The second pass on the example site keeps what the first one
    recorded. *)
Lemma visited_entries_are_final_witness :
  exists c0,
    @__init__ example "http://h/" 10 default_delay None = Ok c0
    /\ let c := (@crawl_body example c0).1 in
       @keeps example c (@crawl_body example c).1.
Proof.
  constructed (@__init__ example "http://h/" 10 default_delay None).
  split; [reflexivity|]. cbv zeta.
  match goal with |- context [@crawl_body _ (@crawl_body _ ?c0).1] =>
    destruct (@visited_entries_are_final example "http://h/" 10 default_delay None
                c0 (@crawl_body example c0).1 eq_refl) as [Hreach _]
  end.
  - apply reach_pass; [apply reach_start | reflexivity..].
  - apply Hreach. apply reach_pass; [apply reach_start | |].
    + vm_compute. reflexivity.
    + vm_compute. reflexivity.
Defined.

(** A second call on the example site. *)
Lemma crawl_again_returns_the_same_witness :
  exists c0 c' r,
    @__init__ example "http://h/" 10 default_delay None = Ok c0
    /\ @crawl example 20 c0 = Some (c', Ok r)
    /\ @crawl example 0 c' = Some (c', Ok r).
Proof.
  constructed (@__init__ example "http://h/" 10 default_delay None).
  observe_run (fun (c : @Crawler example) (r : CrawlResult) => true)
              c' r Hobs Hrun.
  exists c', r. split; [reflexivity|]. split; [reflexivity|].
  apply (@crawl_again_returns_the_same example 20 _ c' r Hrun).
Defined.

(** The example site crawled with a delay of minus one second. *)
Lemma rejected_delay_raises_witness :
  exists c0,
    @__init__ example "http://h/" 10 (PyInt (-1)) None = Ok c0
    /\ exists c',
         @crawl example 1 c0 = Some (c', Raise ValueError)
         /\ visited c' = {["http://h"]}
         /\ requested (stdout c') = ["http://h"].
Proof.
  constructed (@__init__ example "http://h/" 10 (PyInt (-1)) None).
  split; [reflexivity|].
  match goal with |- context [@crawl _ 1 ?c0] =>
    destruct (proj1 (@rejected_delay_raises example) "http://h/" 10%Z
                (PyInt (-1)) None c0 ValueError eq_refl) with (fuel := 1)
      as (c' & Hrun & Hv & Hreq & _)
  end.
  - lia.
  - reflexivity.
  - eexists. vm_compute. reflexivity.
  - lia.
  - exists c'. split_and!; [exact Hrun | exact Hv | exact Hreq].
Defined.

(** The crawl of the example site ends within its budget: nothing is left
    in the queue and every link found is settled. *)
Lemma crawl_settles_every_link_witness :
  exists c0 c' r,
    @__init__ example "http://h/" 10 default_delay None = Ok c0
    /\ @crawl example 20 c0 = Some (c', Ok r)
    /\ @closed example c' /\ queue c' = [].
Proof.
  constructed (@__init__ example "http://h/" 10 default_delay None).
  observe_run (fun (c : @Crawler example) (r : CrawlResult) =>
                 bool_decide (Z.of_nat (size (visited c)) < 10)%Z)
              c' r Hobs Hrun.
  apply bool_decide_eq_true_1 in Hobs.
  exists c', r. split; [reflexivity|]. split; [reflexivity|].
  destruct (@crawl_settles_every_link example "http://h/" 10 default_delay None _
              eq_refl) as [_ Hend].
  destruct (Hend _ _ _ Hrun) as [Hclosed Hdone].
  split; [exact Hclosed|]. by destruct (Hdone Hobs).
Defined.

(** The links of the home page of the example site, each once. *)
Example extract_links_example :
  @extract_links example example_home "http://h"
  = Ok ["http://h/a"; "http://h/b/#x"; "http://other.com/c"].
Proof. vm_compute. reflexivity. Qed.

(** After the first pass on the example site the home page is visited. *)
Lemma visited_normalized_but_seed_witness :
  exists c0,
    @__init__ example "http://h/" 10 default_delay None = Ok c0
    /\ let c := (@crawl_body example c0).1 in
       ("http://h" ∈ visited c)
       /\ (forall url, url ∈ visited c ->
             no_trailing_slash url
             /\ (url = base c0 \/ Py.contains "#" url = false))
       /\ dom (pages c) ⊆ visited c.
Proof.
  constructed (@__init__ example "http://h/" 10 default_delay None).
  split; [reflexivity|]. cbv zeta.
  split; [apply (bool_decide_unpack _); vm_compute; exact I|].
  match goal with |- context [@crawl_body _ ?c0] =>
    apply (@visited_normalized_but_seed example "http://h/" 10 default_delay None
             c0 eq_refl (@crawl_body example c0).1)
  end.
  apply reach_pass; [apply reach_start | reflexivity..].
Defined.
